(** * Chatbot: a rotating pool of API clients with cooldown and failover

    A shallow embedding of [src/chatbot.py] (class [Chatbot]) and the
    properties of its rotation, cooldown and retry logic.

    Modelling conventions
    - A Python [str] is a [string]; each character stands for the code point
      of the same number (0..255).
    - [time.time()] returns seconds as a float: timestamps are IEEE 754
      binary64 numbers ([float]), subtracted with rounding to nearest even
      as the interpreter does, and compared with the integer cooldowns by
      exact value. The integer [0] stored in ["last_failure_time"] is the
      float zero: it is only ever subtracted from a float.
    - A method is a computation in the monad [M]: it reads and writes the
      [Chatbot] instance, emits the observable effects (logger calls and
      upstream requests) and either returns a value or raises. What was
      written before an exception stays written, as in Python.
    - The interpreter is CPython with its default settings: [int()]
      refuses a literal of more than 4300 digits.
    - A record of the configuration is a dict; what it holds under a key
      may be a null, which [get] returns in place of the default.
    - One caller at a time: the lock is not represented. *)

From Stdlib Require Import List String Ascii Bool Arith ZArith QArith Lia.
From Stdlib Require Import DecimalString Floats.SpecFloat.
Import ListNotations.

Local Open Scope string_scope.
Local Open Scope list_scope.
Local Open Scope nat_scope.

(** ** Python builtins used by the class *)

Module PyBuiltins.

Definition code (c : ascii) : nat := nat_of_ascii c.

Definition in_range (lo hi n : nat) : bool := (lo <=? n) && (n <=? hi).

(** [str.isspace] on one character, for code points below 256. *)
Definition isspace (c : ascii) : bool :=
  in_range 9 13 (code c) || in_range 28 32 (code c)
  || (code c =? 133) || (code c =? 160).

(** The characters [int()] skips around a literal: the C-locale spaces,
    and the two other whitespace code points below 256, which CPython
    maps to a space before parsing. *)
Definition isspace_int (c : ascii) : bool :=
  in_range 9 13 (code c) || (code c =? 32)
  || (code c =? 133) || (code c =? 160).

Definition isdigit (c : ascii) : bool := in_range 48 57 (code c).

Definition digit_value (c : ascii) : Z := Z.of_nat (code c - 48).

Fixpoint lstrip_with (sp : ascii -> bool) (s : string) : string :=
  match s with
  | String c r => if sp c then lstrip_with sp r else s
  | EmptyString => EmptyString
  end.

Definition reverse (s : string) : string :=
  string_of_list_ascii (rev (list_ascii_of_string s)).

Definition rstrip_with (sp : ascii -> bool) (s : string) : string :=
  reverse (lstrip_with sp (reverse s)).

(** [s.strip()] *)
Definition strip (s : string) : string :=
  rstrip_with isspace (lstrip_with isspace s).

(** Truth value of a string: [bool(s)]. *)
Definition truthy (s : string) : bool :=
  match s with EmptyString => false | String _ _ => true end.

(** [str(x)] for [x] a string or [None]. *)
Definition str (x : option string) : string :=
  match x with Some s => s | None => "None" end.

(** [str(i)] for a non-negative integer. *)
Definition str_of_nat (i : nat) : string :=
  NilEmpty.string_of_uint (Nat.to_uint i).

(** [sys.get_int_max_str_digits()], at the interpreter's default. *)
Definition int_max_str_digits : N := 4300.

(** The digits of a decimal literal: single underscores may separate
    digits. Returns the value read, the number of digits read (underscores
    are not counted, leading zeros are) and what follows the literal. *)
Fixpoint scan_digits (after_underscore : bool) (acc : Z) (digits : N)
  (s : string) : option (Z * N * string) :=
  match s with
  | String c r =>
      if isdigit c then
        scan_digits false (10 * acc + digit_value c)%Z (digits + 1)%N r
      else if Ascii.eqb c "_"%char then
        if after_underscore then None else scan_digits true acc digits r
      else if after_underscore then None else Some (acc, digits, s)
  | EmptyString => if after_underscore then None else Some (acc, digits, s)
  end.

(** [int(s)] for a string [s]: [None] stands for [ValueError]. Optional
    surrounding whitespace, an optional sign, then decimal digits, no more
    of them than [int_max_str_digits]. *)
Definition int (s : string) : option Z :=
  let s1 := lstrip_with isspace_int s in
  let '(sign, s2) :=
    match s1 with
    | String "+"%char r => (1%Z, r)
    | String "-"%char r => ((-1)%Z, r)
    | _ => (1%Z, s1)
    end in
  match s2 with
  | String c _ =>
      if isdigit c then
        match scan_digits false 0%Z 0%N s2 with
        | Some (v, digits, rest) =>
            if (digits <=? int_max_str_digits)%N then
              match lstrip_with isspace_int rest with
              | EmptyString => Some (sign * v)%Z
              | String _ _ => None
              end
            else None
        | None => None
        end
      else None
  | EmptyString => None
  end.

(** [a > b] on exact values. *)
Definition Qgt_bool (a b : Q) : bool := negb (Qle_bool a b).

(** A Python [float]: an IEEE 754 binary64 number. *)
Definition float : Type := spec_float.

(** [float(z)]: the float nearest to the integer [z]; equal to it when
    [z] has at most 53 significant bits. *)
Definition float_of_int (z : Z) : float := binary_normalize 53 1024 z 0 false.

(** [x - y] on floats, rounded to nearest, ties to even. *)
Definition float_sub (x y : float) : float := SFsub 53 1024 x y.

(** [x / y] on floats, rounded to nearest, ties to even. *)
Definition float_div (x y : float) : float := SFdiv 53 1024 x y.

(** The number a finite float stands for. *)
Definition float_value (x : float) : option Q :=
  match x with
  | S754_zero _ => Some 0%Q
  | S754_finite s m e =>
      Some match e with
           | Zneg p => (cond_Zopp s (Zpos m) # 2 ^ p)%Q
           | _ => inject_Z (cond_Zopp s (Zpos m) * 2 ^ e)
           end
  | S754_infinity _ | S754_nan => None
  end.

(** [x > d] for a float [x] and an integer [d]: the interpreter compares
    the exact values; a NaN is greater than nothing. *)
Definition float_gt_int (x : float) (d : Z) : bool :=
  match x with
  | S754_nan => false
  | S754_infinity s => negb s
  | S754_zero _ | S754_finite _ _ _ =>
      match float_value x with
      | Some q => Qgt_bool q (inject_Z d)
      | None => false
      end
  end.

(** A string of [n] nines. *)
Fixpoint nines (n : nat) : string :=
  match n with O => EmptyString | S m => String "9"%char (nines m) end.

End PyBuiltins.

Module Chatbot.

Import PyBuiltins.

(** ** Data *)

(** An [OpenAI] client object. Python compares two of them by identity:
    [client_id] is that identity. *)
Record client_t := mk_client {
  client_id : nat;
  client_base_url : option string;
  client_api_key : string
}.

Definition client_eqb (a b : client_t) : bool :=
  client_id a =? client_id b.

(** One entry of [self.api_states]: a dict with the keys below;
    ["cooldown_until"] is absent until a rate limit sets it. *)
Record api_info := mk_api_info {
  is_available : bool;
  last_failure_time : float;
  client : client_t;
  model_name : option string;
  name : string;
  cooldown_until : option Z
}.

(** The instance attributes of a [Chatbot]. [temperature] and
    [max_tokens] are numbers, or [None] once a record has stored a null
    there; the class passes them on and never computes with them. *)
Record chatbot := mk_chatbot {
  model : string;
  api_states : list api_info;
  _current_api_index : nat;
  cooldown_period : Z;
  max_attempts_per_prompt : nat;
  temperature : option Q;
  max_tokens : option Z
}.

Definition with_api_states (l : list api_info) (self : chatbot) : chatbot :=
  {| model := model self; api_states := l;
     _current_api_index := _current_api_index self;
     cooldown_period := cooldown_period self;
     max_attempts_per_prompt := max_attempts_per_prompt self;
     temperature := temperature self; max_tokens := max_tokens self |}.

Definition with_current_api_index (i : nat) (self : chatbot) : chatbot :=
  {| model := model self; api_states := api_states self;
     _current_api_index := i;
     cooldown_period := cooldown_period self;
     max_attempts_per_prompt := max_attempts_per_prompt self;
     temperature := temperature self; max_tokens := max_tokens self |}.

Record message := mk_message { role : string; content : string }.

(** The arguments of [client.chat.completions.create]. *)
Record request := mk_request {
  req_client : client_t;
  req_model : option string;
  req_messages : list message;
  req_temperature : option Q;
  req_max_tokens : option Z
}.

(** What one upstream request does, by the [except] clause that handles
    it. [Completion c]: it returns and [choices[0].message.content] is
    [c] ([None] or a string). [RateLimitError h]: [h] is
    [e.response.headers.get("retry-after")]. [APIStatusError]: a status
    error that is not a rate limit. [APIError]: an API error that is not a
    status error. [OtherException]: any other [Exception]. *)
Inductive transport_result :=
| Completion (c : option string)
| RateLimitError (retry_after : option string)
| APIStatusError
| APIError
| OtherException.

(** ** Effects *)

Inductive exn := IndexError | ValueError | SystemExit | TypeError.

Inductive outcome (A : Type) :=
| Returns (a : A)
| Raises (e : exn).
Arguments Returns {A} a.
Arguments Raises {A} e.

(** What a run does that can be seen from outside: the upstream requests
    and the logger calls, in order. *)
Inductive event :=
| Invoke (r : request)
| LogRecovered (api_name : string)
| LogNoneAvailable
| LogAttempt (api_name : string) (attempt budget : nat)
| LogRateLimit (api_name : string)
| LogCooldown (api_name : string) (delay : option Z)
| LogPermanent (api_name : string)
| LogAllDisabled
| LogAPIError (api_name : string)
| LogUnknown (api_name : string)
| LogExhausted (budget : nat)
| LogIncomplete (model_key : string)
| LogInitFailed (key_index : nat) (model_key : string)
| LogNoClients.

Definition M (A : Type) : Type := chatbot -> outcome A * chatbot * list event.

Definition ret {A} (a : A) : M A := fun self => (Returns a, self, []).

Definition bind {A B} (m : M A) (k : A -> M B) : M B :=
  fun self =>
    match m self with
    | (Returns a, self1, t1) =>
        match k a self1 with
        | (o, self2, t2) => (o, self2, t1 ++ t2)
        end
    | (Raises e, self1, t1) => (Raises e, self1, t1)
    end.

Definition raise {A} (e : exn) : M A := fun self => (Raises e, self, []).
Definition get : M chatbot := fun self => (Returns self, self, []).
Definition modify (f : chatbot -> chatbot) : M unit :=
  fun self => (Returns tt, f self, []).
Definition emit (e : event) : M unit := fun self => (Returns tt, self, [e]).

Declare Scope py_scope.
Delimit Scope py_scope with py.
Notation "x <- m ;; k" := (bind m (fun x => k))
  (at level 100, m at next level, right associativity) : py_scope.
Notation "m ;; k" := (bind m (fun _ => k))
  (at level 100, right associativity) : py_scope.
Local Open Scope py_scope.

Definition result_of {A} (r : outcome A * chatbot * list event) : outcome A :=
  fst (fst r).
Definition state_of {A} (r : outcome A * chatbot * list event) : chatbot :=
  snd (fst r).
Definition events_of {A} (r : outcome A * chatbot * list event) : list event :=
  snd r.

(** [l[i]] *)
Definition subscript {A} (l : list A) (i : nat) : M A :=
  match nth_error l i with
  | Some a => ret a
  | None => raise IndexError
  end.

(** Writing to the dict that is entry [i] of [self.api_states]. *)
Fixpoint update_nth {A} (i : nat) (a : A) (l : list A) : list A :=
  match l, i with
  | [], _ => []
  | _ :: r, O => a :: r
  | x :: r, S j => x :: update_nth j a r
  end.

Definition store_api_info (i : nat) (a : api_info) : M unit :=
  modify (fun self => with_api_states (update_nth i a (api_states self)) self).

(** ** Construction *)

(** What a record holds under one key: nothing (the key is absent), a
    null, or a value. *)
Inductive field (A : Type) :=
| Absent
| Null
| Given (a : A).
Arguments Absent {A}.
Arguments Null {A}.
Arguments Given {A} a.

(** [record.get(key, default)]: the default for an absent key, otherwise
    what is stored under the key, [None] for a null. *)
Definition field_get {A} (f : field A) (default : option A) : option A :=
  match f with
  | Absent => default
  | Null => None
  | Given a => Some a
  end.

(** One value of the [llm_config] dict: the record of one model, with
    what it holds under each of the five keys the class reads. A value
    that is not a null is of the type the class expects: a string, a list
    of strings, a number. *)
Record llm_entry := mk_llm_entry {
  cfg_base_url : field string;
  cfg_model : field string;
  cfg_api_keys : field (list string);
  cfg_temperature : field Q;
  cfg_max_tokens : field Z
}.

(** [{}] *)
Definition empty_entry : llm_entry :=
  {| cfg_base_url := Absent; cfg_model := Absent; cfg_api_keys := Absent;
     cfg_temperature := Absent; cfg_max_tokens := Absent |}.

(** [d.get(k, default)] on the dict of all models. *)
Fixpoint dict_get (d : list (string * llm_entry)) (k : string)
  (default : llm_entry) : llm_entry :=
  match d with
  | [] => default
  | (k', v) :: r => if String.eqb k' k then v else dict_get r k default
  end.

(** [not x] for an optional string. *)
Definition falsy (x : option string) : bool :=
  match x with Some s => negb (truthy s) | None => true end.

Definition is_nil {A} (l : list A) : bool :=
  match l with [] => true | _ :: _ => false end.

(** [not x] for a list or [None]. *)
Definition falsy_list {A} (x : option (list A)) : bool :=
  match x with Some l => is_nil l | None => true end.

Definition with_sampling (t : option Q) (m : option Z) (self : chatbot)
  : chatbot :=
  {| model := model self; api_states := api_states self;
     _current_api_index := _current_api_index self;
     cooldown_period := cooldown_period self;
     max_attempts_per_prompt := max_attempts_per_prompt self;
     temperature := t; max_tokens := m |}.

Section Construction.

(** [OpenAI(base_url=.., api_key=..)] is outside the repository: it
    either builds a client or raises. [openai_ok] says which. *)
Variable openai_ok : option string -> string -> bool.

(** The body of [for i, api_key in enumerate(api_keys)]. The client built
    for key [i] is a new object; [i] names its identity. *)
Fixpoint init_loop (base_url model_name : option string) (i : nat)
  (api_keys : list string) : M unit :=
  match api_keys with
  | [] => ret tt
  | api_key :: rest =>
      self <- get ;;
      (if openai_ok base_url api_key then
         let client_instance :=
           {| client_id := i; client_base_url := base_url;
              client_api_key := api_key |} in
         modify (with_api_states
           (api_states self ++
            [ {| is_available := true;
                 last_failure_time := float_of_int 0;
                 client := client_instance;
                 model_name := model_name;
                 name := model self ++ "-" ++ str_of_nat i ++ "@"
                         ++ str base_url;
                 cooldown_until := None |} ]))
       else emit (LogInitFailed i (model self))) ;;
      init_loop base_url model_name (S i) rest
  end.

(** [enumerate(api_keys)] raises [TypeError] when [api_keys] is [None]. *)
Definition _initialize_clients (llm_config_dict : llm_entry) : M unit :=
  let base_url := field_get (cfg_base_url llm_config_dict) None in
  let model_name := field_get (cfg_model llm_config_dict) None in
  let api_keys := field_get (cfg_api_keys llm_config_dict) (Some []) in
  self <- get ;;
  modify (with_sampling
    (field_get (cfg_temperature llm_config_dict) (temperature self))
    (field_get (cfg_max_tokens llm_config_dict) (max_tokens self))) ;;
  (if falsy base_url || falsy model_name || falsy_list api_keys
   then emit (LogIncomplete (model self))
   else ret tt) ;;
  match api_keys with
  | Some keys => init_loop base_url model_name 0 keys
  | None => raise TypeError
  end.

(** [Chatbot(model, llm_config)]: the new instance, or the exception that
    ends construction. *)
Definition __init__ (model : string) (llm_config : list (string * llm_entry))
  : outcome unit * chatbot * list event :=
  (_initialize_clients (dict_get llm_config model empty_entry) ;;
   self <- get ;;
   if is_nil (api_states self)
   then emit LogNoClients ;; raise SystemExit
   else ret tt)
  {| model := model; api_states := []; _current_api_index := 0;
     cooldown_period := 300; max_attempts_per_prompt := 5;
     temperature := Some (7 # 10); max_tokens := Some 4096%Z |}.

End Construction.

(** ** Selection *)

(** What [_get_next_available_client] returns when it finds a client:
    [(client, model_name, name)]. [None] is [(None, None, None)]. *)
Definition selection : Type := client_t * option string * string.

Definition select (a : api_info) : selection :=
  (client a, model_name a, name a).

(** [api_info.get("cooldown_until", self.cooldown_period)] *)
Definition cooldown_of (self : chatbot) (a : api_info) : Z :=
  match cooldown_until a with Some d => d | None => cooldown_period self end.

(** [time.time() - api_info["last_failure_time"]], with [now] the clock
    reading: the elapsed time as the code computes it. *)
Definition elapsed (now : float) (a : api_info) : float :=
  float_sub now (last_failure_time a).

(** [time.time() - api_info["last_failure_time"] > cooldown] *)
Definition cooldown_over (self : chatbot) (now : float) (a : api_info)
  : bool :=
  float_gt_int (elapsed now a) (cooldown_of self a).

Definition recover (a : api_info) : api_info :=
  {| is_available := true; last_failure_time := float_of_int 0;
     client := client a;
     model_name := model_name a; name := name a;
     cooldown_until := cooldown_until a |}.

(** The [for _ in range(num_apis)] loop, with [remaining] iterations to
    go. [clock step] is what [time.time()] reads in iteration [step]. *)
Fixpoint scan (clock : nat -> float) (num_apis step remaining : nat)
  : M (option selection) :=
  match remaining with
  | O => ret None
  | S r =>
      self <- get ;;
      let i := _current_api_index self in
      api_info <- subscript (api_states self) i ;;
      api_info <-
        (if negb (is_available api_info)
            && cooldown_over self (clock step) api_info
         then
           store_api_info i (recover api_info) ;;
           emit (LogRecovered (name api_info)) ;;
           ret (recover api_info)
         else ret api_info) ;;
      if is_available api_info then
        modify (with_current_api_index ((i + 1) mod num_apis)) ;;
        ret (Some (select api_info))
      else
        modify (with_current_api_index ((i + 1) mod num_apis)) ;;
        scan clock num_apis (S step) r
  end.

Definition _get_next_available_client (clock : nat -> float)
  : M (option selection) :=
  self <- get ;;
  let num_apis := List.length (api_states self) in
  if num_apis =? 0 then ret None
  else scan clock num_apis 0 num_apis.

(** ** The call *)

(** What the outside world does during one attempt: the clock readings of
    the selection scan, the upstream's answer, and the clock reading of
    the failure handler. *)
Record attempt_env := mk_attempt_env {
  select_clock : nat -> float;
  response : transport_result;
  failure_clock : float
}.

Definition default_system_prompt : string := "You are a helpful assistant.".

Definition failure_result : string :=
  "Error: Could not generate content after multiple attempts.".

Definition build_messages (prompt system_prompt : string) : list message :=
  (if truthy system_prompt
   then [ {| role := "system"; content := system_prompt |} ]
   else [])
  ++ [ {| role := "user"; content := prompt |} ].

(** The first entry of [l] whose client is [c], with its position. *)
Fixpoint first_with_client (c : client_t) (l : list api_info) (i : nat)
  : option (nat * api_info) :=
  match l with
  | [] => None
  | a :: r =>
      if client_eqb (client a) c then Some (i, a)
      else first_with_client c r (S i)
  end.

Definition mark_rate_limited (now : float) (delay : Z) (a : api_info)
  : api_info :=
  {| is_available := false; last_failure_time := now; client := client a;
     model_name := model_name a; name := name a;
     cooldown_until := Some delay |}.

Definition mark_failed (now : float) (a : api_info) : api_info :=
  {| is_available := false; last_failure_time := now; client := client a;
     model_name := model_name a; name := name a;
     cooldown_until := cooldown_until a |}.

(** How an iteration of the attempt loop ends. *)
Inductive flow :=
| Continue
| Break
| Return (v : string).

(** [except RateLimitError as e] *)
Definition on_rate_limit (now : float) (c : client_t) (api_name : string)
  (retry_after : option string) : M flow :=
  emit (LogRateLimit api_name) ;;
  self <- get ;;
  match first_with_client c (api_states self) 0 with
  | Some (i, api_info) =>
      delay <-
        (match retry_after with
         | Some h =>
             if truthy h then
               match int h with
               | Some d => ret d
               | None => raise ValueError
               end
             else ret (cooldown_period self)
         | None => ret (cooldown_period self)
         end) ;;
      store_api_info i (mark_rate_limited now delay api_info) ;;
      emit (LogCooldown api_name (Some delay)) ;;
      ret Continue
  | None => ret Continue
  end.

(** [except APIStatusError as e] *)
Definition on_status_error (c : client_t) (api_name : string) : M flow :=
  emit (LogPermanent api_name) ;;
  self <- get ;;
  modify (with_api_states
    (filter (fun api => negb (client_eqb (client api) c)) (api_states self))) ;;
  self <- get ;;
  if is_nil (api_states self)
  then emit LogAllDisabled ;; ret Break
  else ret Continue.

(** The body shared by [except APIError] and [except Exception]. *)
Definition on_failure (now : float) (c : client_t) (api_name : string)
  : M flow :=
  self <- get ;;
  match first_with_client c (api_states self) 0 with
  | Some (i, api_info) =>
      store_api_info i (mark_failed now api_info) ;;
      emit (LogCooldown api_name None) ;;
      ret Continue
  | None => ret Continue
  end.

(** The outcome of the [try] block once the request has been sent: the
    [return] of the success path, or the [except] clause that matches. *)
Definition handle_response (env : attempt_env) (c : client_t)
  (api_name : string) : M flow :=
  match response env with
  | Completion c0 => ret (Return (strip (str c0)))
  | RateLimitError retry_after =>
      on_rate_limit (failure_clock env) c api_name retry_after
  | APIStatusError => on_status_error c api_name
  | APIError =>
      emit (LogAPIError api_name) ;;
      on_failure (failure_clock env) c api_name
  | OtherException =>
      emit (LogUnknown api_name) ;;
      on_failure (failure_clock env) c api_name
  end.

(** One iteration of [for attempt in range(self.max_attempts_per_prompt)]. *)
Definition attempt_body (env : attempt_env) (messages : list message)
  (attempt : nat) : M flow :=
  sel <- _get_next_available_client (select_clock env) ;;
  match sel with
  | None => emit LogNoneAvailable ;; ret Break
  | Some (c, model_name, api_name) =>
      self <- get ;;
      emit (LogAttempt api_name (attempt + 1) (max_attempts_per_prompt self)) ;;
      emit (Invoke {| req_client := c; req_model := model_name;
                      req_messages := messages;
                      req_temperature := temperature self;
                      req_max_tokens := max_tokens self |}) ;;
      handle_response env c api_name
  end.

(** The attempt loop from iteration [attempt], with [remaining] iterations
    to go. [Some v]: the loop was left by [return v]; [None]: it ended or
    was left by [break]. *)
Fixpoint attempts (env : nat -> attempt_env) (messages : list message)
  (attempt remaining : nat) : M (option string) :=
  match remaining with
  | O => ret None
  | S r =>
      f <- attempt_body (env attempt) messages attempt ;;
      match f with
      | Return v => ret (Some v)
      | Break => ret None
      | Continue => attempts env messages (S attempt) r
      end
  end.

Definition call (env : nat -> attempt_env) (prompt system_prompt : string)
  : M string :=
  let messages := build_messages prompt system_prompt in
  self <- get ;;
  r <- attempts env messages 0 (max_attempts_per_prompt self) ;;
  match r with
  | Some v => ret v
  | None =>
      self <- get ;;
      emit (LogExhausted (max_attempts_per_prompt self)) ;;
      ret failure_result
  end.

(** ** Runs and what is observed of them *)

(** [n] calls of [_get_next_available_client], one after the other;
    [clocks k] is the clock of call number [k]. *)
Fixpoint successive_selections (clocks : nat -> nat -> float) (k n : nat)
  : M (list (option selection)) :=
  match n with
  | O => ret []
  | S m =>
      x <- _get_next_available_client (clocks k) ;;
      xs <- successive_selections clocks (S k) m ;;
      ret (x :: xs)
  end.

(** The instance after [n] iterations of the attempt loop, from iteration
    [attempt], when each of them reaches the end of its body ([None] when
    one of them returns, breaks or raises). *)
Fixpoint continues (env : nat -> attempt_env) (messages : list message)
  (attempt n : nat) (self : chatbot) : option chatbot :=
  match n with
  | O => Some self
  | S m =>
      match attempt_body (env attempt) messages attempt self with
      | (Returns Continue, self1, _) =>
          continues env messages (S attempt) m self1
      | _ => None
      end
  end.

(** The upstream requests among the events of a run. *)
Fixpoint requests (t : list event) : list request :=
  match t with
  | [] => []
  | Invoke r :: t' => r :: requests t'
  | _ :: t' => requests t'
  end.

Definition invocations (t : list event) : nat := List.length (requests t).

Definition is_recovery (e : event) : Prop :=
  match e with LogRecovered _ => True | _ => False end.

(** No request follows the first report that the pool is empty. *)
Fixpoint quiet_after_empty (t : list event) : Prop :=
  match t with
  | [] => True
  | LogAllDisabled :: t' => requests t' = []
  | _ :: t' => quiet_after_empty t'
  end.

Definition identity (a : api_info) : nat := client_id (client a).

(** ** Example pools and environments *)

Definition always_builds : option string -> string -> bool :=
  fun _ _ => true.

Definition example_entry (api_keys : list string) : llm_entry :=
  {| cfg_base_url := Given "https://api.example.com/v1";
     cfg_model := Given "example-model";
     cfg_api_keys := Given api_keys;
     cfg_temperature := Absent; cfg_max_tokens := Absent |}.

(** The instance [Chatbot("m", {"m": example_entry api_keys})]. *)
Definition example_pool (api_keys : list string) : chatbot :=
  state_of (__init__ always_builds "m" [("m", example_entry api_keys)]).

(** A record with no ["model"] key. *)
Definition entry_without_model : llm_entry :=
  {| cfg_base_url := Given "https://api.example.com/v1";
     cfg_model := Absent;
     cfg_api_keys := Given ["k0"];
     cfg_temperature := Absent; cfg_max_tokens := Absent |}.

(** A record that holds a null under ["api_keys"]. *)
Definition entry_with_null_keys : llm_entry :=
  {| cfg_base_url := Given "https://api.example.com/v1";
     cfg_model := Given "example-model";
     cfg_api_keys := Null;
     cfg_temperature := Absent; cfg_max_tokens := Absent |}.

(** A record that holds nulls under ["temperature"] and ["max_tokens"]. *)
Definition entry_with_null_sampling : llm_entry :=
  {| cfg_base_url := Given "https://api.example.com/v1";
     cfg_model := Given "example-model";
     cfg_api_keys := Given ["k0"];
     cfg_temperature := Null; cfg_max_tokens := Null |}.

(** Every attempt reads the clock at [now] and gets the answer [r]. *)
Definition steady (now : float) (r : transport_result) : nat -> attempt_env :=
  fun _ => {| select_clock := fun _ => now; response := r;
              failure_clock := now |}.

(** The one-target pool after a call whose request was rate limited at
    time [now] with the header [retry-after: retry_after]. *)
Definition rate_limited_pool (retry_after : string) (now : float) : chatbot :=
  state_of (call (steady now (RateLimitError (Some retry_after))) "hi"
              default_system_prompt (example_pool ["k0"])).

(** That pool, rate limited at time 0 for 10 seconds, after a second call
    at time 11 whose request failed with an [APIError]. *)
Definition then_generic_failure : chatbot :=
  state_of (call (steady (float_of_int 11) APIError) "hi" default_system_prompt
              (rate_limited_pool "10" (float_of_int 0))).

(** The first attempt is rate limited for 10 seconds, the next one is
    served; all at time 0. *)
Definition limited_then_served : nat -> attempt_env :=
  fun attempt =>
    {| select_clock := fun _ => float_of_int 0;
       response := match attempt with
                   | O => RateLimitError (Some "10")
                   | S _ => Completion (Some "ok")
                   end;
       failure_clock := float_of_int 0 |}.

(** A pool of two targets after that call: the first is cooling down, the
    second is available. *)
Definition one_cooling_of_two : chatbot :=
  state_of (call limited_then_served "hi" default_system_prompt
              (example_pool ["k0"; "k1"])).

(** The first attempt fails with an [APIError], the next one is served
    with a null content. *)
Definition failed_then_null : nat -> attempt_env :=
  fun attempt =>
    {| select_clock := fun _ => float_of_int 0;
       response := match attempt with
                   | O => APIError
                   | S _ => Completion None
                   end;
       failure_clock := float_of_int 0 |}.

(** A two-target pool after one iteration of the attempt loop whose
    request failed with a permanent status error. *)
Definition after_one_removal : chatbot :=
  state_of (attempt_body (steady (float_of_int 5) APIStatusError 0)
              (build_messages "hi" default_system_prompt) 0
              (example_pool ["k0"; "k1"])).

(** The first target of [one_cooling_of_two]. *)
Definition cooling_target : api_info :=
  {| is_available := false; last_failure_time := float_of_int 0;
     client := {| client_id := 0;
                  client_base_url := Some "https://api.example.com/v1";
                  client_api_key := "k0" |};
     model_name := Some "example-model";
     name := "m-0@https://api.example.com/v1";
     cooldown_until := Some 10%Z |}.

(** ** What stays fixed, and further observations *)

(** The attributes that only construction writes. *)
Definition settings (self : chatbot)
  : string * Z * nat * option Q * option Z :=
  (model self, cooldown_period self, max_attempts_per_prompt self,
   temperature self, max_tokens self).

(** The cursor is an index of the target list. *)
Definition cursor_in_range (self : chatbot) : Prop :=
  _current_api_index self < List.length (api_states self).

(** [api_keys] as [_initialize_clients] reads it: [get("api_keys", [])],
    a list, or [None] for a null. *)
Definition keys_of (entry : llm_entry) : option (list string) :=
  field_get (cfg_api_keys entry) (Some []).

(** The "Attempting API call ... (Attempt i/K)" lines of a run: the pairs
    (i, K), in order. *)
Fixpoint attempt_logs (t : list event) : list (nat * nat) :=
  match t with
  | [] => []
  | LogAttempt _ i K :: t' => (i, K) :: attempt_logs t'
  | _ :: t' => attempt_logs t'
  end.

(** The first character of a string is whitespace. *)
Definition starts_with_space (s : string) : bool :=
  match s with String c _ => isspace c | EmptyString => false end.

(** The last character of a string is whitespace. *)
Definition ends_with_space (s : string) : bool :=
  starts_with_space (reverse s).

(** The events of the [except] clauses. *)
Definition is_handler_event (e : event) : Prop :=
  match e with
  | LogRateLimit _ | LogCooldown _ _ | LogPermanent _ | LogAllDisabled
  | LogAPIError _ | LogUnknown _ => True
  | _ => False
  end.

(** The targets of [self'] are targets of [self], in the same order, with
    the same client, model name and name: some may have been removed. *)
Definition kept (self self' : chatbot) : Prop :=
  exists q : selection -> bool,
    map select (api_states self') = filter q (map select (api_states self)).

(** An upstream answer whose handler does not raise and removes nothing:
    not a permanent status error, and a rate limit only with a
    [retry-after] header that is absent, empty or a literal [int] reads:
    an integer literal of no more than [int_max_str_digits] digits. *)
Definition transient_only (r : transport_result) : Prop :=
  match r with
  | APIStatusError => False
  | RateLimitError (Some h) => truthy h = true -> int h <> None
  | _ => True
  end.

(** The events an iteration of the attempt loop can emit. *)
Definition is_body_event (e : event) : Prop :=
  match e with
  | LogExhausted _ | LogIncomplete _ | LogInitFailed _ _ | LogNoClients => False
  | _ => True
  end.

(** A request goes to a target of [self], with the settings of [self]. *)
Definition request_from (self : chatbot) (r : request) : Prop :=
  (exists api_name,
      In (req_client r, req_model r, api_name) (map select (api_states self)))
  /\ req_temperature r = temperature self
  /\ req_max_tokens r = max_tokens self.

(** Selection cannot run past the list: the cursor is inside it, or the
    list is empty. *)
Definition cursor_ok (self : chatbot) : Prop :=
  cursor_in_range self \/ api_states self = [].

(** A target as construction makes it, for a record with this endpoint
    and this model name. *)
Definition fresh_target (base_url mn : option string) (a : api_info) : Prop :=
  is_available a = true /\ last_failure_time a = float_of_int 0 /\
  cooldown_until a = None /\ model_name a = mn /\
  client_base_url (client a) = base_url.

Definition api_key_of (a : api_info) : string := client_api_key (client a).

(** The second target of [one_cooling_of_two]. *)
Definition serving_target : api_info :=
  {| is_available := true; last_failure_time := float_of_int 0;
     client := {| client_id := 1;
                  client_base_url := Some "https://api.example.com/v1";
                  client_api_key := "k1" |};
     model_name := Some "example-model";
     name := "m-1@https://api.example.com/v1";
     cooldown_until := None |}.

(** The request a call with prompt "hi" and the default system prompt
    sends to the first target of an example pool. *)
Definition first_request : request :=
  {| req_client := {| client_id := 0;
                      client_base_url := Some "https://api.example.com/v1";
                      client_api_key := "k0" |};
     req_model := Some "example-model";
     req_messages := build_messages "hi" default_system_prompt;
     req_temperature := Some (7 # 10); req_max_tokens := Some 4096%Z |}.

(** One iteration of the attempt loop on a fresh pool of two targets, in
    which the upstream answers [r] and every clock reads 5. *)
Definition first_attempt (r : transport_result)
  : outcome flow * chatbot * list event :=
  attempt_body (steady (float_of_int 5) r 0)
    (build_messages "hi" default_system_prompt) 0
    (example_pool ["k0"; "k1"]).

(** ** Properties *)

Lemma Qgt_bool_iff (a b : Q) : Qgt_bool a b = true <-> (b < a)%Q.
Proof.
  unfold Qgt_bool. rewrite negb_true_iff.
  split; intro H.
  - apply Qnot_le_lt. intro Hle. apply Qle_bool_iff in Hle. congruence.
  - destruct (Qle_bool a b) eqn:E; [|reflexivity].
    apply Qle_bool_iff in E. exfalso. exact (Qlt_not_le _ _ H E).
Qed.

Lemma Qgt_bool_false_iff (a b : Q) : Qgt_bool a b = false <-> (a <= b)%Q.
Proof.
  unfold Qgt_bool. rewrite negb_false_iff. apply Qle_bool_iff.
Qed.

(** On a finite float, [float_gt_int] is the strict order of the exact
    values. *)
Lemma float_gt_int_exact (x : float) (d : Z) (q : Q) :
  float_value x = Some q ->
  (float_gt_int x d = true <-> (inject_Z d < q)%Q).
Proof.
  intro Hq. unfold float_gt_int.
  destruct x; try discriminate; rewrite Hq; apply Qgt_bool_iff.
Qed.

(** And it fails exactly when the value is at most the integer. *)
Lemma float_gt_int_false_exact (x : float) (d : Z) (q : Q) :
  float_value x = Some q ->
  (float_gt_int x d = false <-> (q <= inject_Z d)%Q).
Proof.
  intro Hq. unfold float_gt_int.
  destruct x; try discriminate; rewrite Hq; apply Qgt_bool_false_iff.
Qed.

Lemma with_current_api_index_same (self : chatbot) :
  with_current_api_index (_current_api_index self) self = self.
Proof. destruct self; reflexivity. Qed.

Lemma with_current_api_index_twice (i j : nat) (self : chatbot) :
  with_current_api_index i (with_current_api_index j self)
  = with_current_api_index i self.
Proof. reflexivity. Qed.

(** *** One iteration of the selection scan *)

Lemma scan_step (clock : nat -> float) (num_apis step r : nat)
  (self : chatbot) :
  scan clock num_apis step (S r) self =
  let i := _current_api_index self in
  match nth_error (api_states self) i with
  | None => (Raises IndexError, self, [])
  | Some a =>
      if negb (is_available a) && cooldown_over self (clock step) a then
        (Returns (Some (select a)),
         with_current_api_index ((i + 1) mod num_apis)
           (with_api_states (update_nth i (recover a) (api_states self)) self),
         [LogRecovered (name a)])
      else if is_available a then
        (Returns (Some (select a)),
         with_current_api_index ((i + 1) mod num_apis) self, [])
      else
        scan clock num_apis (S step) r
          (with_current_api_index ((i + 1) mod num_apis) self)
  end.
Proof.
  cbn [scan]. unfold bind, get, subscript. cbn zeta.
  destruct (nth_error (api_states self) (_current_api_index self)) as [a|];
    [|reflexivity].
  unfold ret at 1. cbn iota.
  destruct (negb (is_available a) && cooldown_over self (clock step) a) eqn:E.
  - reflexivity.
  - unfold ret at 1. cbn iota.
    destruct (is_available a) eqn:Ea.
    + reflexivity.
    + unfold modify. cbn iota.
      destruct (scan clock num_apis (S step) r _) as [[o s2] t2].
      reflexivity.
Qed.

Lemma scan_zero (clock : nat -> float) (num_apis step : nat) (self : chatbot) :
  scan clock num_apis step 0 self = (Returns None, self, []).
Proof. reflexivity. Qed.

Lemma select_unfold (clock : nat -> float) (self : chatbot) :
  _get_next_available_client clock self =
  match api_states self with
  | [] => (Returns None, self, [])
  | _ :: _ =>
      scan clock (List.length (api_states self)) 0
        (List.length (api_states self)) self
  end.
Proof.
  unfold _get_next_available_client, bind, get.
  destruct (api_states self) as [|a l] eqn:E.
  - reflexivity.
  - cbn [List.length Nat.eqb].
    destruct (scan clock _ 0 _ self) as [[o s2] t2]. reflexivity.
Qed.

(** C8. On a pool whose target list is empty, select-next returns none
    (the triple of [None]s) and changes nothing: the instance, cursor
    included, is the one it was called on, and nothing is logged. *)
Theorem select_next_on_empty_pool (clock : nat -> float) (self : chatbot) :
  api_states self = [] ->
  _get_next_available_client clock self = (Returns None, self, []).
Proof.
  intro H. rewrite select_unfold, H. reflexivity.
Qed.

(** *** Rotation over a pool whose targets are all available *)

Lemma skipn_nth_error {A} (l : list A) (c : nat) (a : A) :
  nth_error l c = Some a -> skipn c l = a :: skipn (S c) l.
Proof.
  revert c. induction l as [|x l IH]; intros [|c] H; cbn in H; try discriminate.
  - injection H as ->. reflexivity.
  - cbn [skipn]. rewrite (IH c H). reflexivity.
Qed.

Lemma all_available_nth (l : list api_info) (c : nat) (a : api_info) :
  forallb is_available l = true -> nth_error l c = Some a ->
  is_available a = true.
Proof.
  intros Hall Hc. rewrite forallb_forall in Hall.
  apply Hall. eapply nth_error_In; eassumption.
Qed.

Lemma select_available (clock : nat -> float) (self : chatbot) (a : api_info) :
  nth_error (api_states self) (_current_api_index self) = Some a ->
  is_available a = true ->
  _get_next_available_client clock self =
  (Returns (Some (select a)),
   with_current_api_index
     ((_current_api_index self + 1) mod List.length (api_states self)) self,
   []).
Proof.
  intros Hc Ha. rewrite select_unfold.
  destruct (api_states self) as [|x l] eqn:E.
  - destruct (_current_api_index self); discriminate.
  - cbn [List.length]. rewrite scan_step. cbn zeta.
    rewrite E, Hc, Ha. reflexivity.
Qed.

Lemma successive_from (clocks : nat -> nat -> float) (self : chatbot) :
  let l := api_states self in
  forallb is_available l = true ->
  forall n c k,
    c + S n <= List.length l ->
    successive_selections clocks k (S n) (with_current_api_index c self) =
    (Returns (map (fun a => Some (select a)) (firstn (S n) (skipn c l))),
     with_current_api_index ((c + S n) mod List.length l) self, []).
Proof.
  intros l Hall n. induction n as [|n IH]; intros c k Hle.
  - destruct (nth_error l c) as [a|] eqn:Hc.
    2:{ apply nth_error_None in Hc. lia. }
    cbn [successive_selections]. unfold bind.
    rewrite (select_available (clocks k) (with_current_api_index c self) a Hc
               (all_available_nth l c a Hall Hc)).
    rewrite (skipn_nth_error l c a Hc). cbn.
    replace (c + 1) with (S c) by lia. reflexivity.
  - destruct (nth_error l c) as [a|] eqn:Hc.
    2:{ apply nth_error_None in Hc. lia. }
    change (successive_selections clocks k (S (S n)))
      with (bind (_get_next_available_client (clocks k))
              (fun x => bind (successive_selections clocks (S k) (S n))
                          (fun xs => ret (x :: xs)))).
    unfold bind at 1.
    rewrite (select_available (clocks k) (with_current_api_index c self) a Hc
               (all_available_nth l c a Hall Hc)).
    cbn [_current_api_index with_current_api_index api_states].
    fold l. rewrite (Nat.mod_small (c + 1) (List.length l)) by lia.
    rewrite with_current_api_index_twice.
    unfold bind. rewrite (IH (c + 1) (S k)) by lia.
    rewrite (skipn_nth_error l c a Hc).
    replace (c + 1 + S n) with (c + S (S n)) by lia.
    replace (c + 1) with (S c) by lia. reflexivity.
Qed.

(** C3. On a pool of N >= 1 targets, all available, with the cursor where
    construction leaves it (0), N successive calls of select-next return
    the N targets, each once, in the order of the target list; no call
    changes a target, and the cursor is back at 0. *)
Theorem rotation_visits_each_target_once
  (clocks : nat -> nat -> float) (self : chatbot) :
  1 <= List.length (api_states self) ->
  _current_api_index self = 0 ->
  forallb is_available (api_states self) = true ->
  successive_selections clocks 0 (List.length (api_states self)) self =
  (Returns (map (fun a => Some (select a)) (api_states self)), self, []).
Proof.
  intros HN Hc Hall.
  destruct (List.length (api_states self)) as [|n] eqn:EN; [lia|].
  rewrite <- (with_current_api_index_same self) at 1.
  rewrite Hc.
  rewrite (successive_from clocks self Hall n 0 0) by lia.
  rewrite EN. cbn [skipn Nat.add]. rewrite <- EN.
  rewrite firstn_all, Nat.Div0.mod_same.
  rewrite <- Hc at 1. rewrite with_current_api_index_same. reflexivity.
Qed.

(** *** Cooldown: when an unavailable target can be selected *)

(** What the scan returns is a target of the pool that was available, or
    whose cooldown was over at one of the clock readings. *)
Lemma scan_sound (clock : nat -> float) (num_apis : nat) :
  forall r step self sel self' t,
    scan clock num_apis step r self = (Returns (Some sel), self', t) ->
    exists i a k,
      nth_error (api_states self) i = Some a /\ sel = select a /\
      (is_available a = true \/ cooldown_over self (clock k) a = true).
Proof.
  induction r as [|r IH]; intros step self sel self' t H.
  - rewrite scan_zero in H. discriminate.
  - rewrite scan_step in H. cbn zeta in H.
    destruct (nth_error (api_states self) (_current_api_index self))
      as [a|] eqn:Hc; [|discriminate].
    destruct (negb (is_available a) && cooldown_over self (clock step) a)
      eqn:E.
    + apply andb_true_iff in E. destruct E as [_ E].
      injection H as <- _ _.
      exists (_current_api_index self), a, step. auto.
    + destruct (is_available a) eqn:Ea.
      * injection H as <- _ _.
        exists (_current_api_index self), a, step. auto.
      * apply IH in H. exact H.
Qed.

(** With the cursor inside the list, the scan does not raise. *)
Lemma scan_total (clock : nat -> float) :
  forall r step self,
    _current_api_index self < List.length (api_states self) ->
    exists o self' t,
      scan clock (List.length (api_states self)) step r self
      = (Returns o, self', t).
Proof.
  induction r as [|r IH]; intros step self Hc.
  - rewrite scan_zero. eauto.
  - rewrite scan_step. cbn zeta.
    destruct (nth_error (api_states self) (_current_api_index self))
      as [a|] eqn:Ha.
    2:{ apply nth_error_None in Ha. lia. }
    destruct (negb (is_available a) && cooldown_over self (clock step) a);
      [eauto|].
    destruct (is_available a); [eauto|].
    apply (IH (S step)
             (with_current_api_index
                ((_current_api_index self + 1)
                 mod List.length (api_states self)) self)).
    cbn [_current_api_index with_current_api_index api_states].
    apply Nat.mod_upper_bound. lia.
Qed.

(** The scan passes the targets that are unavailable and still cooling
    down: after [j] of them it is [j] positions further, and nothing has
    changed but the cursor. *)
Lemma scan_skips (clock : nat -> float) :
  forall j r step self,
    let l := api_states self in
    let c := _current_api_index self in
    c < List.length l ->
    (forall k b, k < j ->
       nth_error l ((c + k) mod List.length l) = Some b ->
       is_available b = false /\
       cooldown_over self (clock (step + k)) b = false) ->
    scan clock (List.length l) step (j + r) self =
    scan clock (List.length l) (step + j) r
      (with_current_api_index ((c + j) mod List.length l) self).
Proof.
  induction j as [|j IH]; intros r step self l c Hc Hskip.
  - rewrite !Nat.add_0_r. rewrite Nat.mod_small by exact Hc.
    subst c. rewrite with_current_api_index_same. reflexivity.
  - cbn [Nat.add]. rewrite scan_step. cbn zeta. fold l c.
    destruct (nth_error l c) as [b|] eqn:Hb.
    2:{ apply nth_error_None in Hb. lia. }
    destruct (Hskip 0 b) as [Hav Hcd]; [lia | |].
    { rewrite Nat.add_0_r, Nat.mod_small by exact Hc. exact Hb. }
    rewrite Nat.add_0_r in Hcd. rewrite Hav, Hcd. cbn [negb andb].
    pose proof (IH r (S step)
                  (with_current_api_index ((c + 1) mod List.length l) self))
      as E.
    cbv zeta in E.
    cbn [_current_api_index with_current_api_index api_states] in E.
    fold l in E. rewrite E.
    + rewrite Nat.Div0.add_mod_idemp_l.
      replace (c + 1 + j) with (c + S j) by lia.
      replace (S step + j) with (step + S j) by lia.
      reflexivity.
    + apply Nat.mod_upper_bound. lia.
    + intros k b' Hk Hb'.
      rewrite Nat.Div0.add_mod_idemp_l in Hb'.
      replace (c + 1 + k) with (c + S k) in Hb' by lia.
      destruct (Hskip (S k) b' ltac:(lia) Hb') as [H1 H2].
      replace (step + S k) with (S step + k) in H2 by lia.
      split; assumption.
Qed.

Lemma same_identity_same_target (l : list api_info) (i j : nat)
  (a b : api_info) :
  NoDup (map identity l) ->
  nth_error l i = Some a -> nth_error l j = Some b ->
  select a = select b -> a = b.
Proof.
  intros Hnd Hi Hj Hsel.
  assert (Hid : identity a = identity b).
  { unfold identity. unfold select in Hsel. congruence. }
  assert (Hlt : i < List.length (map identity l)).
  { rewrite length_map. apply nth_error_Some. congruence. }
  assert (Heq : i = j).
  { apply (proj1 (NoDup_nth_error (map identity l)) Hnd i j Hlt).
    rewrite !nth_error_map, Hi, Hj. cbn. congruence. }
  subst j. congruence.
Qed.

Lemma select_nonempty (clock : nat -> float) (self : chatbot) :
  0 < List.length (api_states self) ->
  _get_next_available_client clock self =
  scan clock (List.length (api_states self)) 0
    (List.length (api_states self)) self.
Proof.
  intro H. rewrite select_unfold.
  destruct (api_states self); [cbn in H; lia | reflexivity].
Qed.

(** C7, as the code has it. The elapsed time of a target at a clock
    reading is the float [elapsed now a], the difference the code
    computes in double precision; it exceeds the cooldown when
    [float_gt_int] says so, which for a finite difference means that its
    exact value is strictly greater than the cooldown. For a target that
    is unavailable, in a pool whose clients are distinct objects and whose
    cursor is inside the list:
    - a call of select-next during which the elapsed time never exceeds
      the cooldown returns none or another target, never this one;
    - when the scan reaches the target (the targets before it in scan
      order are unavailable and still cooling down) and the elapsed time
      exceeds the cooldown, the call returns this target, marks it
      available, clears its failure time, logs the recovery and moves the
      cursor past it. *)
Theorem cooling_target_selected_only_after_cooldown
  (clock : nat -> float) (self : chatbot) (j : nat) (a : api_info) :
  let l := api_states self in
  let c := _current_api_index self in
  let at_a := (c + j) mod List.length l in
  c < List.length l -> j < List.length l ->
  NoDup (map identity l) ->
  nth_error l at_a = Some a ->
  is_available a = false ->
  ((forall k,
      float_gt_int (float_sub (clock k) (last_failure_time a))
        (cooldown_of self a) = false) ->
   exists r,
     result_of (_get_next_available_client clock self) = Returns r /\
     r <> Some (select a))
  /\
  ((forall k b, k < j ->
      nth_error l ((c + k) mod List.length l) = Some b ->
      is_available b = false /\ cooldown_over self (clock k) b = false) ->
   float_gt_int (float_sub (clock j) (last_failure_time a))
     (cooldown_of self a) = true ->
   _get_next_available_client clock self =
   (Returns (Some (select a)),
    with_current_api_index ((at_a + 1) mod List.length l)
      (with_api_states (update_nth at_a (recover a) l) self),
    [LogRecovered (name a)]))
  /\
  (forall k q,
      float_value (float_sub (clock k) (last_failure_time a)) = Some q ->
      (float_gt_int (float_sub (clock k) (last_failure_time a))
         (cooldown_of self a) = true
       <-> (inject_Z (cooldown_of self a) < q)%Q)).
Proof.
  intros l c at_a Hc Hj Hnd Ha Hav. split; [|split].
  - intros Hearly.
    rewrite select_nonempty by (fold l; lia). fold l.
    destruct (scan_total clock (List.length l) 0 self Hc) as (o & s' & t & E).
    fold l in E. rewrite E. exists o. split; [reflexivity|].
    intro Ho. subst o.
    destruct (scan_sound _ _ _ _ _ _ _ _ E) as (i & a' & k & Hi & Hsel & Hor).
    assert (a = a')
      by (eapply (same_identity_same_target l); eassumption).
    subst a'. destruct Hor as [Hor|Hor]; [congruence|].
    unfold cooldown_over, elapsed in Hor. rewrite (Hearly k) in Hor.
    discriminate.
  - intros Hbefore Hdue.
    rewrite select_nonempty by (fold l; lia). fold l.
    transitivity (scan clock (List.length l) 0
                    (j + S (List.length l - j - 1)) self).
    { f_equal. lia. }
    pose proof (scan_skips clock j (S (List.length l - j - 1)) 0 self Hc)
      as E.
    cbv zeta in E. fold l c in E. rewrite E by exact Hbefore. clear E.
    rewrite scan_step. cbn zeta.
    cbn [_current_api_index with_current_api_index api_states].
    fold l c at_a. rewrite Ha, Hav. cbn [negb andb].
    change (cooldown_over
              (with_current_api_index at_a self) (clock (0 + j)) a)
      with (float_gt_int (float_sub (clock j) (last_failure_time a))
              (cooldown_of self a)).
    rewrite Hdue. reflexivity.
  - intros k q Hq. apply float_gt_int_exact. exact Hq.
Qed.

(** *** Construction gives every target a client of its own *)

Lemma init_loop_distinct (openai_ok : option string -> string -> bool)
  (base_url model_name : option string) :
  forall api_keys i self,
    NoDup (map identity (api_states self)) ->
    (forall a, In a (api_states self) -> identity a < i) ->
    NoDup (map identity
             (api_states
                (state_of (init_loop openai_ok base_url model_name i
                             api_keys self)))).
Proof.
  induction api_keys as [|api_key rest IH]; intros i self Hnd Hlt.
  - exact Hnd.
  - cbn [init_loop]. unfold bind, get. cbv beta iota.
    destruct (openai_ok base_url api_key).
    + unfold modify. cbv beta iota.
      match goal with
      | |- context [init_loop _ _ _ (S i) rest ?s1] =>
          specialize (IH (S i) s1); destruct (init_loop _ _ _ (S i) rest s1)
            as [[o2 s2] t2]
      end.
      cbn [state_of fst snd api_states with_api_states] in IH |- *.
      apply IH.
      * rewrite map_app. cbn [map identity client client_id].
        apply NoDup_app; [exact Hnd | repeat constructor; intros [] |].
        intros x Hin [<-|[]]. apply in_map_iff in Hin.
        destruct Hin as (a & Ha & Hin). apply Hlt in Hin. lia.
      * intros a Hin. apply in_app_or in Hin. destruct Hin as [Hin|[<-|[]]].
        -- apply Hlt in Hin. lia.
        -- cbn. lia.
    + unfold emit. cbv beta iota.
      specialize (IH (S i) self).
      destruct (init_loop openai_ok base_url model_name (S i) rest self)
        as [[o2 s2] t2].
      cbn [state_of fst snd] in IH |- *.
      apply IH; [exact Hnd|]. intros a Hin. apply Hlt in Hin. lia.
Qed.

Lemma constructed_clients_distinct (openai_ok : option string -> string -> bool)
  (model_key : string) (llm_config : list (string * llm_entry)) :
  NoDup (map identity
           (api_states (state_of (__init__ openai_ok model_key llm_config)))).
Proof.
  unfold __init__, _initialize_clients.
  set (entry := dict_get llm_config model_key empty_entry).
  destruct (field_get (cfg_api_keys entry) (Some [])) as [keys|];
    unfold bind, get, modify; cbv beta iota;
    match goal with
    | |- context [if ?b then emit _ else ret tt] => destruct b
    end;
    unfold emit, ret, raise; cbv beta iota;
    try (cbn; constructor; fail);
    match goal with
    | |- context [init_loop _ ?bu ?mn 0 ?ks ?s1] =>
        pose proof (init_loop_distinct openai_ok bu mn ks 0 s1) as H;
        destruct (init_loop openai_ok bu mn 0 ks s1) as [[[[]|e] s2] t2]
    end;
    cbn [state_of fst snd api_states with_sampling] in H |- *;
    try (destruct (is_nil (api_states s2)); cbn [state_of fst snd raise]);
    apply H; try constructor; intros a [].
Qed.

(** *** What a run emits *)

Lemma requests_app (t1 t2 : list event) :
  requests (t1 ++ t2) = requests t1 ++ requests t2.
Proof.
  induction t1 as [|e t1 IH]; [reflexivity|].
  destruct e; cbn [app requests]; rewrite IH; reflexivity.
Qed.

Lemma invocations_app (t1 t2 : list event) :
  invocations (t1 ++ t2) = invocations t1 + invocations t2.
Proof. unfold invocations. rewrite requests_app. apply length_app. Qed.

Lemma recovery_only_requests (t : list event) :
  Forall is_recovery t -> requests t = [].
Proof.
  induction 1 as [|e t He _ IH]; [reflexivity|].
  destruct e; cbn in He; try contradiction. exact IH.
Qed.

Lemma recovery_only_not_in (t : list event) (e : event) :
  Forall is_recovery t -> ~ is_recovery e -> ~ In e t.
Proof.
  intros Hall He Hin. rewrite Forall_forall in Hall. exact (He (Hall e Hin)).
Qed.

Lemma scan_events (clock : nat -> float) (num_apis : nat) :
  forall r step self,
    Forall is_recovery (events_of (scan clock num_apis step r self)).
Proof.
  induction r as [|r IH]; intros step self.
  - rewrite scan_zero. constructor.
  - rewrite scan_step. cbn zeta.
    destruct (nth_error (api_states self) (_current_api_index self)) as [a|];
      [|constructor].
    destruct (negb (is_available a) && cooldown_over self (clock step) a).
    + repeat constructor.
    + destruct (is_available a); [constructor | apply IH].
Qed.

Lemma select_events (clock : nat -> float) (self : chatbot) :
  Forall is_recovery (events_of (_get_next_available_client clock self)).
Proof.
  rewrite select_unfold.
  destruct (api_states self); [constructor | apply scan_events].
Qed.

Lemma quiet_of_no_requests (t : list event) :
  requests t = [] -> quiet_after_empty t.
Proof.
  induction t as [|e t IH]; intro H; [exact I|].
  destruct e; cbn in *; try discriminate; auto.
Qed.

Lemma quiet_app_not_in (t1 t2 : list event) :
  ~ In LogAllDisabled t1 -> quiet_after_empty t2 ->
  quiet_after_empty (t1 ++ t2).
Proof.
  induction t1 as [|e t1 IH]; intros Hnot H2; [exact H2|].
  assert (Hrest : quiet_after_empty (t1 ++ t2)).
  { apply IH; [|exact H2]. intro Hin. apply Hnot. right. exact Hin. }
  destruct e; cbn [app quiet_after_empty]; try exact Hrest.
  exfalso. apply Hnot. left. reflexivity.
Qed.

Lemma quiet_app_silent (t1 t2 : list event) :
  quiet_after_empty t1 -> requests t2 = [] ->
  quiet_after_empty (t1 ++ t2).
Proof.
  induction t1 as [|e t1 IH]; intros H1 H2.
  - apply quiet_of_no_requests. exact H2.
  - destruct e; cbn [app quiet_after_empty] in *; auto.
    rewrite requests_app, H1, H2. reflexivity.
Qed.

Lemma quiet_split (t pre post : list event) :
  quiet_after_empty t -> t = pre ++ LogAllDisabled :: post ->
  invocations post = 0.
Proof.
  revert t. induction pre as [|e pre IH]; intros t Hq ->.
  - cbn in Hq. unfold invocations. rewrite Hq. reflexivity.
  - assert (Hpost : requests (pre ++ LogAllDisabled :: post) = [] ->
                    invocations post = 0).
    { rewrite requests_app. cbn [requests]. intro H.
      apply app_eq_nil in H. unfold invocations. destruct H as [_ ->].
      reflexivity. }
    destruct e; cbn [app quiet_after_empty] in Hq;
      try (eapply IH; [exact Hq | reflexivity]).
    exact (Hpost Hq).
Qed.

Ltac run_handler :=
  unfold handle_response, on_rate_limit, on_status_error, on_failure,
    store_api_info, bind, ret, get, modify, emit, raise.

(** The handlers send no request; they report the empty pool only when
    they leave the loop. *)
Lemma handle_response_events (env : attempt_env) (c : client_t)
  (api_name : string) (self self' : chatbot) (o : outcome flow)
  (t : list event) :
  handle_response env c api_name self = (o, self', t) ->
  requests t = [] /\ ~ In LogNoneAvailable t /\
  (o = Returns Continue -> ~ In LogAllDisabled t).
Proof.
  run_handler. intro H.
  repeat (cbv beta iota zeta in H;
          match type of H with
          | context [match ?x with _ => _ end] =>
              lazymatch x with
              | context [match _ with _ => _ end] => fail
              | _ => destruct x
              end
          end);
    cbv beta iota zeta in H;
    injection H as <- <- <-; cbn [app requests In];
    (split; [reflexivity | split; [|intros Ho]]);
    try discriminate; intuition discriminate.
Qed.

Lemma attempt_body_unfold (env : attempt_env) (messages : list message)
  (attempt : nat) (self : chatbot) :
  attempt_body env messages attempt self =
  match _get_next_available_client (select_clock env) self with
  | (Raises e, self1, t1) => (Raises e, self1, t1)
  | (Returns None, self1, t1) =>
      (Returns Break, self1, t1 ++ [LogNoneAvailable])
  | (Returns (Some (c, model_name, api_name)), self1, t1) =>
      match handle_response env c api_name self1 with
      | (o, self2, t2) =>
          (o, self2,
           t1 ++ LogAttempt api_name (attempt + 1)
                   (max_attempts_per_prompt self1)
              :: Invoke {| req_client := c; req_model := model_name;
                           req_messages := messages;
                           req_temperature := temperature self1;
                           req_max_tokens := max_tokens self1 |}
              :: t2)
      end
  end.
Proof.
  unfold attempt_body. unfold bind at 1.
  destruct (_get_next_available_client (select_clock env) self)
    as [[[[[[c mn] an]|]|e] self1] t1]; try reflexivity.
  unfold bind, get, emit.
  destruct (handle_response env c an self1) as [[o self2] t2].
  reflexivity.
Qed.

(** One iteration: at most one request, carrying the messages of the
    call; none at all when no client is available. *)
Lemma attempt_body_events (env : attempt_env) (messages : list message)
  (attempt : nat) (self self' : chatbot) (o : outcome flow)
  (t : list event) :
  attempt_body env messages attempt self = (o, self', t) ->
  invocations t <= 1 /\
  (In LogNoneAvailable t -> invocations t = 0 /\ o = Returns Break) /\
  (o = Returns Continue -> ~ In LogAllDisabled t) /\
  quiet_after_empty t /\
  (forall req, In req (requests t) -> req_messages req = messages).
Proof.
  rewrite attempt_body_unfold.
  pose proof (select_events (select_clock env) self) as Hsel.
  destruct (_get_next_available_client (select_clock env) self)
    as [[o1 self1] t1].
  cbn [events_of snd] in Hsel.
  pose proof (recovery_only_requests t1 Hsel) as Hreq1.
  assert (Hlna1 : ~ In LogNoneAvailable t1)
    by (apply recovery_only_not_in; [exact Hsel | exact (fun x => x)]).
  assert (Hlad1 : ~ In LogAllDisabled t1)
    by (apply recovery_only_not_in; [exact Hsel | exact (fun x => x)]).
  destruct o1 as [[[[c mn] an]|]|e].
  - destruct (handle_response env c an self1) as [[o2 self2] t2] eqn:Eh.
    apply handle_response_events in Eh. destruct Eh as (Hreq2 & Hlna & Hlad).
    intro H. injection H as <- <- <-.
    unfold invocations. rewrite requests_app, Hreq1.
    cbn [requests app List.length]. rewrite Hreq2. cbn [List.length].
    split; [lia | split; [|split; [|split]]].
    + intro H. exfalso. apply in_app_or in H. destruct H as [H|[H|[H|H]]];
        try discriminate; [exact (Hlna1 H) | exact (Hlna H)].
    + intros Ho Hin. apply in_app_or in Hin.
      destruct Hin as [H|[H|[H|H]]]; try discriminate;
        [exact (Hlad1 H) | exact (Hlad Ho H)].
    + apply quiet_app_not_in; [exact Hlad1|].
      cbn [quiet_after_empty]. apply quiet_of_no_requests. exact Hreq2.
    + intros req [<-|[]]. reflexivity.
  - intro H. injection H as <- <- <-.
    unfold invocations. rewrite requests_app, Hreq1.
    cbn [requests app List.length].
    split; [lia | split; [|split; [|split]]].
    + intros _. split; reflexivity.
    + discriminate.
    + apply quiet_app_not_in; [exact Hlad1 | exact I].
    + intros req [].
  - intro H. injection H as <- <- <-.
    unfold invocations. rewrite Hreq1. cbn [List.length].
    split; [lia | split; [|split; [|split]]].
    + intro H. exfalso. exact (Hlna1 H).
    + discriminate.
    + apply quiet_of_no_requests. exact Hreq1.
    + intros req [].
Qed.

Lemma attempts_unfold (env : nat -> attempt_env) (messages : list message)
  (attempt r : nat) (self : chatbot) :
  attempts env messages attempt (S r) self =
  match attempt_body (env attempt) messages attempt self with
  | (Returns Continue, self1, t1) =>
      match attempts env messages (S attempt) r self1 with
      | (o, self2, t2) => (o, self2, t1 ++ t2)
      end
  | (Returns Break, self1, t1) => (Returns None, self1, t1)
  | (Returns (Return v), self1, t1) => (Returns (Some v), self1, t1)
  | (Raises e, self1, t1) => (Raises e, self1, t1)
  end.
Proof.
  cbn [attempts]. unfold bind.
  destruct (attempt_body (env attempt) messages attempt self)
    as [[[[| |v]|e] self1] t1]; unfold ret; rewrite ?app_nil_r; reflexivity.
Qed.

(** The loop: what the iterations say, added up. *)
Lemma attempts_events (env : nat -> attempt_env) (messages : list message) :
  forall r attempt self,
    let t := events_of (attempts env messages attempt r self) in
    invocations t <= r /\
    (In LogNoneAvailable t -> invocations t < r) /\
    quiet_after_empty t /\
    (forall req, In req (requests t) -> req_messages req = messages).
Proof.
  induction r as [|r IH]; intros attempt self.
  - cbn. repeat split; try lia; intros; contradiction.
  - cbv zeta. rewrite attempts_unfold.
    destruct (attempt_body (env attempt) messages attempt self)
      as [[o1 self1] t1] eqn:Eb.
    apply attempt_body_events in Eb.
    destruct Eb as (Hle & Hlna & Hlad & Hq & Hmsg).
    destruct o1 as [[| |v]|e]; cbn [events_of snd];
      try (split; [lia | split; [|split]];
           [intro H; apply Hlna in H; lia | exact Hq | exact Hmsg]).
    specialize (IH (S attempt) self1). cbv zeta in IH.
    destruct (attempts env messages (S attempt) r self1) as [[o2 self2] t2].
    cbn [events_of snd] in IH |- *.
    destruct IH as (IHle & IHlna & IHq & IHmsg).
    rewrite invocations_app, requests_app.
    split; [lia | split; [|split]].
    + intro H. apply in_app_or in H. destruct H as [H|H].
      * apply Hlna in H. destruct H as [_ H]. discriminate.
      * apply IHlna in H. lia.
    + apply quiet_app_not_in; [apply Hlad; reflexivity | exact IHq].
    + intros req H. apply in_app_or in H. destruct H; auto.
Qed.

Lemma call_unfold (env : nat -> attempt_env) (prompt system_prompt : string)
  (self : chatbot) :
  call env prompt system_prompt self =
  match attempts env (build_messages prompt system_prompt) 0
          (max_attempts_per_prompt self) self with
  | (Returns (Some v), self1, t1) => (Returns v, self1, t1)
  | (Returns None, self1, t1) =>
      (Returns failure_result, self1,
       t1 ++ [LogExhausted (max_attempts_per_prompt self1)])
  | (Raises e, self1, t1) => (Raises e, self1, t1)
  end.
Proof.
  unfold call, bind, get. cbn [app].
  destruct (attempts env (build_messages prompt system_prompt) 0
              (max_attempts_per_prompt self) self)
    as [[[[v|]|e] self1] t1]; unfold ret, emit; cbn [app];
    rewrite ?app_nil_r; reflexivity.
Qed.

Lemma call_events (env : nat -> attempt_env) (prompt system_prompt : string)
  (self : chatbot) :
  let t := events_of (call env prompt system_prompt self) in
  invocations t <= max_attempts_per_prompt self /\
  (In LogNoneAvailable t -> invocations t < max_attempts_per_prompt self) /\
  quiet_after_empty t /\
  (forall req, In req (requests t) ->
               req_messages req = build_messages prompt system_prompt).
Proof.
  cbv zeta. rewrite call_unfold.
  pose proof (attempts_events env (build_messages prompt system_prompt)
                (max_attempts_per_prompt self) 0 self) as H.
  cbv zeta in H.
  destruct (attempts env (build_messages prompt system_prompt) 0
              (max_attempts_per_prompt self) self)
    as [[[[v|]|e] self1] t1]; cbn [events_of snd] in H |- *;
    try exact H.
  destruct H as (Hle & Hlna & Hq & Hmsg).
  rewrite invocations_app, requests_app. cbn [invocations requests List.length].
  rewrite Nat.add_0_r, app_nil_r.
  split; [exact Hle | split; [|split]]; [| |exact Hmsg].
  - intro H. apply in_app_or in H. destruct H as [H|[H|[]]];
      [auto | discriminate].
  - apply quiet_app_silent; [exact Hq | reflexivity].
Qed.

(** *** The attempt loop *)

(** C6. A run of [call] with attempt budget K sends at most K upstream
    requests. It sends fewer than K when some selection finds no client;
    and once the pool has been emptied by permanent removals no further
    request is sent, so a pool emptied after fewer than K requests means
    fewer than K requests in all. *)
Theorem call_requests_within_budget
  (env : nat -> attempt_env) (prompt system_prompt : string)
  (self : chatbot) :
  let t := events_of (call env prompt system_prompt self) in
  let K := max_attempts_per_prompt self in
  invocations t <= K /\
  (In LogNoneAvailable t -> invocations t < K) /\
  (forall pre post,
      t = pre ++ LogAllDisabled :: post ->
      invocations pre < K -> invocations t < K).
Proof.
  intros t K.
  destruct (call_events env prompt system_prompt self)
    as (Hle & Hlna & Hq & _).
  fold t K in Hle, Hlna, Hq.
  split; [exact Hle | split; [exact Hlna|]].
  intros pre post Ht Hpre.
  pose proof (quiet_split t pre post Hq Ht) as Hpost.
  rewrite Ht, invocations_app.
  change (invocations (LogAllDisabled :: post)) with (invocations post).
  lia.
Qed.

(** C9. Every request a run of [call] sends carries the user message
    alone when [system_prompt] is the empty string, and the system
    message followed by the user message when it is not; the default
    system prompt is not empty. *)
Theorem system_message_sent_unless_empty
  (env : nat -> attempt_env) (prompt system_prompt : string)
  (self : chatbot) (req : request) :
  In req (requests (events_of (call env prompt system_prompt self))) ->
  (system_prompt = "" ->
   req_messages req = [ {| role := "user"; content := prompt |} ]) /\
  (system_prompt <> "" ->
   req_messages req = [ {| role := "system"; content := system_prompt |};
                        {| role := "user"; content := prompt |} ]) /\
  default_system_prompt <> "".
Proof.
  intro Hin.
  destruct (call_events env prompt system_prompt self) as (_ & _ & _ & Hmsg).
  rewrite (Hmsg req Hin). unfold build_messages.
  split; [|split].
  - intros ->. reflexivity.
  - intro Hne. destruct system_prompt; [congruence | reflexivity].
  - discriminate.
Qed.

Lemma attempts_after_continues (env : nat -> attempt_env)
  (messages : list message) :
  forall n attempt self self_n r,
    continues env messages attempt n self = Some self_n ->
    result_of (attempts env messages attempt (n + r) self)
    = result_of (attempts env messages (attempt + n) r self_n).
Proof.
  induction n as [|n IH]; intros attempt self self_n r H.
  - cbn in H. injection H as <-. rewrite Nat.add_0_r. reflexivity.
  - cbn [continues] in H. cbn [Nat.add]. rewrite attempts_unfold.
    destruct (attempt_body (env attempt) messages attempt self)
      as [[[[| |v]|e] self1] t1]; try discriminate.
    rewrite <- Nat.add_succ_comm. rewrite <- (IH _ _ _ r H).
    destruct (attempts env messages (S attempt) (n + r) self1) as [[o2 s2] t2].
    reflexivity.
Qed.

(** C10. When the loop reaches an iteration in which a client is selected
    and the upstream request succeeds, [call] returns the content of the
    first choice, turned into a string by [str] and stripped of the
    whitespace at both ends; for the null content that is the string
    "None", returned as a success. *)
Theorem successful_attempt_returns_stripped_content
  (env : nat -> attempt_env) (prompt system_prompt : string)
  (self self_a : chatbot) (a : nat) (sel : selection) (c : option string) :
  a < max_attempts_per_prompt self ->
  continues env (build_messages prompt system_prompt) 0 a self
    = Some self_a ->
  result_of (_get_next_available_client (select_clock (env a)) self_a)
    = Returns (Some sel) ->
  response (env a) = Completion c ->
  result_of (call env prompt system_prompt self) = Returns (strip (str c)) /\
  (c = None ->
   result_of (call env prompt system_prompt self) = Returns "None").
Proof.
  intros Ha Hcont Hsel Hresp.
  assert (H : result_of (call env prompt system_prompt self)
              = Returns (strip (str c))).
  { rewrite call_unfold.
    assert (Hloop :
      result_of (attempts env (build_messages prompt system_prompt) 0
                   (max_attempts_per_prompt self) self)
      = Returns (Some (strip (str c)))).
    { replace (max_attempts_per_prompt self)
        with (a + S (max_attempts_per_prompt self - a - 1)) by lia.
      rewrite (attempts_after_continues _ _ _ _ _ _ _ Hcont).
      rewrite attempts_unfold, attempt_body_unfold. cbn [Nat.add].
      destruct (_get_next_available_client (select_clock (env a)) self_a)
        as [[o1 self1] t1].
      cbn in Hsel. subst o1. destruct sel as [[cl mn] an].
      unfold handle_response. rewrite Hresp. reflexivity. }
    destruct (attempts env (build_messages prompt system_prompt) 0
                (max_attempts_per_prompt self) self) as [[o s1] t1].
    cbn in Hloop. subst o. reflexivity. }
  split; [exact H|]. intros ->. exact H.
Qed.

(** *** Where the code leaves its specification *)

(** C1. [call] raises past its boundary: [ValueError] when a rate-limit
    answer carries a [retry-after] header that is not an integer (here an
    HTTP date), and [IndexError] when a permanent removal has left the
    cursor past the end of the list (here a pool of two whose first
    request gets a permanent status error). *)
Theorem call_raises_past_its_boundary :
  result_of
    (call (steady (float_of_int 5)
             (RateLimitError (Some "Wed, 21 Oct 2015 07:28:00 GMT")))
       "hi" default_system_prompt (example_pool ["k0"]))
  = Raises ValueError
  /\
  result_of
    (call (steady (float_of_int 5) APIStatusError) "hi" default_system_prompt
       (example_pool ["k0"; "k1"]))
  = Raises IndexError.
Proof. split; vm_compute; reflexivity. Qed.

(** C2. After the permanent removal of the first of two targets the list
    has one entry and the cursor is 1: it is not an index of the list, and
    the next select-next raises [IndexError]. *)
Theorem cursor_past_the_end_after_removal :
  List.length (api_states (example_pool ["k0"; "k1"])) = 2 /\
  _current_api_index (example_pool ["k0"; "k1"]) = 0 /\
  List.length (api_states after_one_removal) = 1 /\
  _current_api_index after_one_removal = 1 /\
  result_of (_get_next_available_client (fun _ => float_of_int 5)
               after_one_removal)
  = Raises IndexError.
Proof. repeat split; vm_compute; reflexivity. Qed.

(** C4. A target whose rate limit set a delay of 10 seconds keeps that
    delay when it later fails with a generic error: failed at time 11, it
    is selected again at time 22, long before the default cooldown of 300
    seconds has elapsed. *)
Theorem generic_failure_keeps_server_delay :
  map is_available (api_states then_generic_failure) = [false] /\
  map last_failure_time (api_states then_generic_failure)
  = [float_of_int 11] /\
  map cooldown_until (api_states then_generic_failure) = [Some 10%Z] /\
  cooldown_period then_generic_failure = 300%Z /\
  float_sub (float_of_int 22) (float_of_int 11) = float_of_int 11 /\
  float_gt_int (float_of_int 11) 300 = false /\
  result_of (_get_next_available_client (fun _ => float_of_int 22)
               then_generic_failure)
  = Returns (option_map select (nth_error (api_states then_generic_failure) 0)).
Proof. repeat split; vm_compute; reflexivity. Qed.

(** C5. A record without the ["model"] key is reported as incomplete and
    its keys are used all the same: construction succeeds with one target
    per key, whose model name is [None]. *)
Theorem incomplete_record_still_yields_targets :
  cfg_model entry_without_model = Absent /\
  __init__ always_builds "m" [("m", entry_without_model)]
  = (Returns tt,
     {| model := "m";
        api_states :=
          [ {| is_available := true; last_failure_time := float_of_int 0;
               client := {| client_id := 0;
                            client_base_url :=
                              Some "https://api.example.com/v1";
                            client_api_key := "k0" |};
               model_name := None;
               name := "m-0@https://api.example.com/v1";
               cooldown_until := None |} ];
        _current_api_index := 0; cooldown_period := 300;
        max_attempts_per_prompt := 5;
        temperature := Some (7 # 10); max_tokens := Some 4096%Z |},
     [LogIncomplete "m"]).
Proof. split; vm_compute; reflexivity. Qed.

(** C7, as stated, fails at the boundary: a target marked unavailable at
    time 1000 with a cooldown of 300 seconds is not selected at time 1300,
    when the elapsed time, 300.0 as the code computes it and exactly, equals
    the cooldown. *)
Lemma not_selected_when_elapsed_equals_cooldown :
  map is_available
    (api_states (rate_limited_pool "300" (float_of_int 1000))) = [false] /\
  map last_failure_time
    (api_states (rate_limited_pool "300" (float_of_int 1000)))
  = [float_of_int 1000] /\
  map (cooldown_of (rate_limited_pool "300" (float_of_int 1000)))
    (api_states (rate_limited_pool "300" (float_of_int 1000))) = [300%Z] /\
  float_sub (float_of_int 1300) (float_of_int 1000) = float_of_int 300 /\
  (exists q,
      float_value (float_of_int 300) = Some q /\ (inject_Z 300 <= q)%Q) /\
  result_of (_get_next_available_client (fun _ => float_of_int 1300)
               (rate_limited_pool "300" (float_of_int 1000)))
  = Returns None.
Proof.
  repeat split; try (vm_compute; reflexivity).
  eexists. split; [reflexivity|]. vm_compute. discriminate.
Qed.

(** *** Numbers as the interpreter has them *)

(** Where rounding decides. The floats nearest to 0.1 and to 300.1 differ
    by more than 300, but their difference in double precision is the
    float 300: a target rate limited for 300 seconds at the first of these
    times is not selected at the second. *)
Lemma rounded_difference_at_the_boundary :
  let t0 := float_div (float_of_int 1) (float_of_int 10) in
  let t1 := float_div (float_of_int 3001) (float_of_int 10) in
  (exists q0 q1,
      float_value t0 = Some q0 /\ float_value t1 = Some q1 /\
      (inject_Z 300 < q1 - q0)%Q) /\
  float_sub t1 t0 = float_of_int 300 /\
  float_gt_int (float_sub t1 t0) 300 = false /\
  map last_failure_time (api_states (rate_limited_pool "300" t0)) = [t0] /\
  result_of (_get_next_available_client (fun _ => t1)
               (rate_limited_pool "300" t0)) = Returns None.
Proof.
  cbv zeta. split; [|repeat split; vm_compute; reflexivity].
  eexists. eexists. split; [vm_compute; reflexivity|].
  split; [vm_compute; reflexivity|]. vm_compute. reflexivity.
Qed.

(** The limit on the digits of a literal: [int] reads 4300 digits and
    raises on 4301, and so does a call whose rate-limit answer carries
    such a header. *)
Lemma int_digit_limit :
  int (nines 4300) <> None /\ int (nines 4301) = None /\
  result_of
    (call (steady (float_of_int 5) (RateLimitError (Some (nines 4301))))
       "hi" default_system_prompt (example_pool ["k0"]))
  = Raises ValueError.
Proof.
  split; [vm_compute; discriminate|]. split; vm_compute; reflexivity.
Qed.

(** *** Nulls in a record *)

(** A null under ["api_keys"] is not the default list: the constructor
    logs the record as incomplete and raises [TypeError] at the loop over
    the keys. Nulls under ["temperature"] and ["max_tokens"] are stored,
    and sent with every request. *)
Lemma nulls_are_read_as_stored :
  __init__ always_builds "m" [("m", entry_with_null_keys)]
  = (Raises TypeError,
     {| model := "m"; api_states := []; _current_api_index := 0;
        cooldown_period := 300; max_attempts_per_prompt := 5;
        temperature := Some (7 # 10); max_tokens := Some 4096%Z |},
     [LogIncomplete "m"])
  /\
  (let r := __init__ always_builds "m" [("m", entry_with_null_sampling)] in
   result_of r = Returns tt /\
   temperature (state_of r) = None /\ max_tokens (state_of r) = None /\
   map (fun q => (req_temperature q, req_max_tokens q))
     (requests
        (events_of (call (steady (float_of_int 0) (Completion (Some "ok")))
                      "hi" default_system_prompt (state_of r))))
   = [(None, None)]).
Proof. cbv zeta. repeat split; vm_compute; reflexivity. Qed.

(** *** The theorems at work on the example pools *)

Lemma select_next_on_empty_pool_witness :
  api_states (with_api_states [] (example_pool ["k0"])) = [] /\
  _get_next_available_client (fun _ => float_of_int 0)
    (with_api_states [] (example_pool ["k0"]))
  = (Returns None, with_api_states [] (example_pool ["k0"]), []).
Proof.
  split; [reflexivity|].
  apply (select_next_on_empty_pool (fun _ => float_of_int 0)
           (with_api_states [] (example_pool ["k0"]))).
  reflexivity.
Defined.

Lemma rotation_visits_each_target_once_witness :
  successive_selections (fun _ _ => float_of_int 0) 0 3
    (example_pool ["k0"; "k1"; "k2"])
  = (Returns (map (fun a => Some (select a))
                (api_states (example_pool ["k0"; "k1"; "k2"]))),
     example_pool ["k0"; "k1"; "k2"], []).
Proof.
  apply (rotation_visits_each_target_once (fun _ _ => float_of_int 0)
           (example_pool ["k0"; "k1"; "k2"])).
  - vm_compute. lia.
  - reflexivity.
  - reflexivity.
Defined.

Lemma cooling_target_selected_only_after_cooldown_witness :
  (exists r,
      result_of (_get_next_available_client (fun _ => float_of_int 5)
                   one_cooling_of_two)
      = Returns r /\ r <> Some (select cooling_target))
  /\
  result_of (_get_next_available_client (fun _ => float_of_int 11)
               one_cooling_of_two)
  = Returns (Some (select cooling_target)).
Proof.
  assert (Hc : _current_api_index one_cooling_of_two
               < List.length (api_states one_cooling_of_two))
    by (vm_compute; lia).
  assert (Hj : 0 < List.length (api_states one_cooling_of_two))
    by (vm_compute; lia).
  assert (Hnd : NoDup (map identity (api_states one_cooling_of_two))).
  { vm_compute. repeat constructor; cbn; intuition discriminate. }
  assert (Ha : nth_error (api_states one_cooling_of_two)
                 ((_current_api_index one_cooling_of_two + 0)
                  mod List.length (api_states one_cooling_of_two))
               = Some cooling_target)
    by (vm_compute; reflexivity).
  split.
  - apply (proj1 (cooling_target_selected_only_after_cooldown
                    (fun _ => float_of_int 5) one_cooling_of_two 0
                    cooling_target Hc Hj Hnd Ha eq_refl)).
    intros k. vm_compute. reflexivity.
  - rewrite (proj1 (proj2 (cooling_target_selected_only_after_cooldown
                             (fun _ => float_of_int 11) one_cooling_of_two 0
                             cooling_target Hc Hj Hnd Ha eq_refl))).
    + reflexivity.
    + intros k b Hk. lia.
    + vm_compute. reflexivity.
Defined.

Lemma call_requests_within_budget_witness :
  invocations
    (events_of (call (steady (float_of_int 0) (RateLimitError (Some "10"))) "hi"
                  default_system_prompt (example_pool ["k0"]))) < 5
  /\
  invocations
    (events_of (call (steady (float_of_int 0) APIStatusError) "hi"
                  default_system_prompt (example_pool ["k0"]))) < 5.
Proof.
  split.
  - apply (proj1 (proj2 (call_requests_within_budget
                           (steady (float_of_int 0)
                              (RateLimitError (Some "10"))) "hi"
                           default_system_prompt (example_pool ["k0"])))).
    vm_compute. tauto.
  - apply (proj2 (proj2 (call_requests_within_budget
                           (steady (float_of_int 0) APIStatusError) "hi"
                           default_system_prompt (example_pool ["k0"])))
             (firstn 3 (events_of
                          (call (steady (float_of_int 0) APIStatusError) "hi"
                             default_system_prompt (example_pool ["k0"]))))
             [LogExhausted 5]).
    + vm_compute. reflexivity.
    + vm_compute. lia.
Defined.

Lemma system_message_sent_unless_empty_witness :
  req_messages
    {| req_client := {| client_id := 0;
                        client_base_url := Some "https://api.example.com/v1";
                        client_api_key := "k0" |};
       req_model := Some "example-model";
       req_messages := [ {| role := "user"; content := "hi" |} ];
       req_temperature := Some (7 # 10); req_max_tokens := Some 4096%Z |}
  = [ {| role := "user"; content := "hi" |} ].
Proof.
  refine (proj1 (system_message_sent_unless_empty
                   (steady (float_of_int 0) (Completion (Some "ok"))) "hi" ""
                   (example_pool ["k0"]) _ _) eq_refl).
  vm_compute. left. reflexivity.
Defined.

Lemma successful_attempt_returns_stripped_content_witness :
  result_of (call failed_then_null "hi" default_system_prompt
               (example_pool ["k0"; "k1"]))
  = Returns "None".
Proof.
  eapply (proj2 (successful_attempt_returns_stripped_content
                   failed_then_null "hi" default_system_prompt
                   (example_pool ["k0"; "k1"]) _ 1 _ None _ _ _ eq_refl)
            eq_refl).
  Unshelve.
  all: try (vm_compute; lia).
  all: try reflexivity.
Defined.

(** ** Further properties of selection *)

Lemma map_update_nth {A B} (f : A -> B) (l : list A) (i : nat) (a b : A) :
  nth_error l i = Some a -> f b = f a ->
  map f (update_nth i b l) = map f l.
Proof.
  revert i. induction l as [|x l IH]; intros [|i] H Hf; cbn in H;
    try discriminate.
  - injection H as ->. cbn. rewrite Hf. reflexivity.
  - cbn. rewrite (IH i H Hf). reflexivity.
Qed.

Lemma nth_error_update_nth {A} (l : list A) (i j : nat) (a b : A) :
  nth_error l i = Some a ->
  nth_error (update_nth i b l) j
  = if j =? i then Some b else nth_error l j.
Proof.
  revert i j. induction l as [|x l IH]; intros [|i] [|j] H; cbn in H;
    try discriminate; try reflexivity.
  cbn [update_nth nth_error]. rewrite (IH i j H). reflexivity.
Qed.

(** The scan writes only the cursor, and the two recovery fields of the
    target it returns. *)
Lemma scan_effect (clock : nat -> float) (num_apis : nat) :
  forall r step self o self' t,
    scan clock num_apis step r self = (o, self', t) ->
    settings self' = settings self /\
    map select (api_states self') = map select (api_states self) /\
    map cooldown_until (api_states self')
    = map cooldown_until (api_states self).
Proof.
  induction r as [|r IH]; intros step self o self' t H.
  - rewrite scan_zero in H. injection H as <- <- <-. auto.
  - rewrite scan_step in H. cbn zeta in H.
    destruct (nth_error (api_states self) (_current_api_index self))
      as [a|] eqn:Ha.
    2:{ injection H as <- <- <-. auto. }
    destruct (negb (is_available a) && cooldown_over self (clock step) a).
    + injection H as <- <- <-.
      cbn [api_states with_current_api_index with_api_states].
      split; [reflexivity|].
      split; apply (map_update_nth _ _ _ a); auto.
    + destruct (is_available a).
      * injection H as <- <- <-. auto.
      * apply IH in H. exact H.
Qed.

Lemma scan_cursor (clock : nat -> float) :
  forall r step self o self' t,
    cursor_in_range self ->
    scan clock (List.length (api_states self)) step r self = (o, self', t) ->
    _current_api_index self' < List.length (api_states self).
Proof.
  unfold cursor_in_range.
  induction r as [|r IH]; intros step self o self' t Hc H.
  - rewrite scan_zero in H. injection H as <- <- <-. exact Hc.
  - assert (Hmod : (_current_api_index self + 1)
                   mod List.length (api_states self)
                   < List.length (api_states self))
      by (apply Nat.mod_upper_bound; lia).
    rewrite scan_step in H. cbn zeta in H.
    destruct (nth_error (api_states self) (_current_api_index self))
      as [a|] eqn:Ha.
    2:{ injection H as <- <- <-. exact Hc. }
    destruct (negb (is_available a) && cooldown_over self (clock step) a).
    + injection H as <- <- <-. exact Hmod.
    + destruct (is_available a).
      * injection H as <- <- <-. exact Hmod.
      * apply (IH (S step)
                 (with_current_api_index
                    ((_current_api_index self + 1)
                     mod List.length (api_states self)) self) o self' t);
          [exact Hmod | exact H].
Qed.

(** A scan that finds nothing has only moved the cursor, once per
    iteration. *)
Lemma scan_none (clock : nat -> float) :
  forall r step self self' t,
    cursor_in_range self ->
    scan clock (List.length (api_states self)) step r self
    = (Returns None, self', t) ->
    self' = with_current_api_index
              ((_current_api_index self + r)
               mod List.length (api_states self)) self
    /\ t = [].
Proof.
  unfold cursor_in_range.
  induction r as [|r IH]; intros step self self' t Hc H.
  - rewrite scan_zero in H. injection H as <- <-.
    rewrite Nat.add_0_r, Nat.mod_small by exact Hc.
    rewrite with_current_api_index_same. auto.
  - rewrite scan_step in H. cbn zeta in H.
    destruct (nth_error (api_states self) (_current_api_index self))
      as [a|] eqn:Ha; [|discriminate].
    destruct (negb (is_available a) && cooldown_over self (clock step) a);
      [discriminate|].
    destruct (is_available a); [discriminate|].
    apply (IH (S step)
             (with_current_api_index
                ((_current_api_index self + 1)
                 mod List.length (api_states self)) self)) in H.
    + cbn [_current_api_index with_current_api_index api_states] in H.
      rewrite with_current_api_index_twice in H.
      rewrite Nat.Div0.add_mod_idemp_l in H.
      replace (_current_api_index self + 1 + r)
        with (_current_api_index self + S r) in H by lia.
      exact H.
    + cbn [_current_api_index with_current_api_index api_states].
      apply Nat.mod_upper_bound. lia.
Qed.

(** A scan that finds a target returns an entry of the list, leaves it
    available, and stops just past it. *)
Lemma scan_some (clock : nat -> float) (num_apis : nat) :
  forall r step self sel self' t,
    scan clock num_apis step r self = (Returns (Some sel), self', t) ->
    exists i a,
      nth_error (api_states self) i = Some a /\ sel = select a /\
      _current_api_index self' = (i + 1) mod num_apis /\
      ((is_available a = true /\ api_states self' = api_states self /\ t = [])
       \/
       (is_available a = false /\
        api_states self' = update_nth i (recover a) (api_states self) /\
        t = [LogRecovered (name a)])).
Proof.
  induction r as [|r IH]; intros step self sel self' t H.
  - rewrite scan_zero in H. discriminate.
  - rewrite scan_step in H. cbn zeta in H.
    destruct (nth_error (api_states self) (_current_api_index self))
      as [a|] eqn:Ha; [|discriminate].
    destruct (negb (is_available a) && cooldown_over self (clock step) a)
      eqn:E.
    + injection H as <- <- <-.
      apply andb_true_iff in E. destruct E as [E _].
      apply negb_true_iff in E.
      exists (_current_api_index self), a. auto 10.
    + destruct (is_available a) eqn:Eav.
      * injection H as <- <- <-.
        exists (_current_api_index self), a. auto 10.
      * apply IH in H. exact H.
Qed.

Lemma select_effect (clock : nat -> float) (self : chatbot) :
  let self' := state_of (_get_next_available_client clock self) in
  settings self' = settings self /\
  map select (api_states self') = map select (api_states self) /\
  map cooldown_until (api_states self')
  = map cooldown_until (api_states self) /\
  List.length (api_states self') = List.length (api_states self).
Proof.
  cbv zeta.
  assert (H : settings (state_of (_get_next_available_client clock self))
              = settings self /\
              map select
                (api_states (state_of (_get_next_available_client clock self)))
              = map select (api_states self) /\
              map cooldown_until
                (api_states (state_of (_get_next_available_client clock self)))
              = map cooldown_until (api_states self)).
  { rewrite select_unfold. destruct (api_states self) eqn:E.
    - cbn [state_of fst snd]. rewrite E. auto.
    - rewrite <- E.
      destruct (scan clock (List.length (api_states self)) 0
                  (List.length (api_states self)) self) as [[o s'] t] eqn:Es.
      apply scan_effect in Es. exact Es. }
  destruct H as (H1 & H2 & H3).
  repeat split; try assumption.
  rewrite <- (length_map select), H2, length_map. reflexivity.
Qed.

Lemma select_in_range (clock : nat -> float) (self : chatbot) :
  cursor_in_range self ->
  (exists r,
      result_of (_get_next_available_client clock self) = Returns r) /\
  cursor_in_range (state_of (_get_next_available_client clock self)).
Proof.
  intro Hc.
  pose proof (select_effect clock self) as Hlen.
  cbv zeta in Hlen. destruct Hlen as (_ & _ & _ & Hlen).
  unfold cursor_in_range in *. rewrite Hlen.
  rewrite select_nonempty by lia.
  destruct (scan_total clock (List.length (api_states self)) 0 self Hc)
    as (o & s' & t & E).
  rewrite E. split; [exists o; reflexivity|].
  cbn [state_of fst snd]. eapply scan_cursor; [exact Hc | exact E].
Qed.

Lemma select_out_of_range (clock : nat -> float) (self : chatbot) :
  api_states self <> [] ->
  List.length (api_states self) <= _current_api_index self ->
  _get_next_available_client clock self = (Raises IndexError, self, []).
Proof.
  intros Hne Hc. rewrite select_unfold.
  destruct (api_states self) as [|x l] eqn:E; [congruence|].
  rewrite <- E in *.
  replace (List.length (api_states self))
    with (S (List.length l)) at 2 by (rewrite E; reflexivity).
  rewrite scan_step. cbn zeta.
  apply nth_error_None in Hc. rewrite Hc. reflexivity.
Qed.

Lemma select_none (clock : nat -> float) (self : chatbot) :
  result_of (_get_next_available_client clock self) = Returns None ->
  _get_next_available_client clock self = (Returns None, self, []).
Proof.
  intro H. destruct (api_states self) as [|x l] eqn:E.
  - rewrite select_unfold, E. reflexivity.
  - destruct (Nat.lt_ge_cases (_current_api_index self)
                (List.length (api_states self))) as [Hc|Hc].
    + rewrite select_nonempty in * by lia.
      destruct (scan clock (List.length (api_states self)) 0
                  (List.length (api_states self)) self) as [[o s'] t] eqn:Es.
      cbn in H. subst o.
      destruct (scan_none clock _ 0 self s' t Hc Es) as [-> ->].
      rewrite <- (Nat.mul_1_l (List.length (api_states self))) at 1.
      rewrite Nat.Div0.mod_add, Nat.mod_small by exact Hc.
      rewrite with_current_api_index_same. reflexivity.
    + rewrite select_out_of_range in H by (try exact Hc; congruence).
      discriminate.
Qed.

(** Whatever the scan comes to, it leaves the list of targets as it was,
    or as it was but for one target: one that was unavailable, that the
    scan returns, and that it has marked as recovered. *)
Lemma scan_writes (clock : nat -> float) (num_apis : nat) :
  forall r step self o self' t,
    scan clock num_apis step r self = (o, self', t) ->
    api_states self' = api_states self \/
    exists i a,
      nth_error (api_states self) i = Some a /\
      is_available a = false /\
      o = Returns (Some (select a)) /\
      api_states self' = update_nth i (recover a) (api_states self).
Proof.
  induction r as [|r IH]; intros step self o self' t H.
  - rewrite scan_zero in H. injection H as <- <- <-. left. reflexivity.
  - rewrite scan_step in H. cbn zeta in H.
    destruct (nth_error (api_states self) (_current_api_index self))
      as [a|] eqn:Ha.
    2:{ injection H as <- <- <-. left. reflexivity. }
    destruct (negb (is_available a) && cooldown_over self (clock step) a)
      eqn:E.
    + injection H as <- <- <-. right.
      apply andb_true_iff in E. destruct E as [E _].
      apply negb_true_iff in E.
      exists (_current_api_index self), a. auto.
    + destruct (is_available a).
      * injection H as <- <- <-. left. reflexivity.
      * apply IH in H. exact H.
Qed.

Lemma select_writes (clock : nat -> float) (self : chatbot) :
  let r := _get_next_available_client clock self in
  api_states (state_of r) = api_states self \/
  exists i a,
    nth_error (api_states self) i = Some a /\
    is_available a = false /\
    result_of r = Returns (Some (select a)) /\
    nth_error (api_states (state_of r)) i = Some (recover a) /\
    forall j, j <> i ->
      nth_error (api_states (state_of r)) j = nth_error (api_states self) j.
Proof.
  cbv zeta. rewrite select_unfold.
  destruct (api_states self) as [|x l] eqn:E.
  - left. cbn [state_of fst snd]. exact E.
  - rewrite <- E.
    destruct (scan clock (List.length (api_states self)) 0
                (List.length (api_states self)) self) as [[o s'] t] eqn:Es.
    cbn [state_of result_of fst snd].
    destruct (scan_writes _ _ _ _ _ _ _ _ Es)
      as [Hst|(i & a & Ha & Hav & Ho & Hst)]; [left; exact Hst|].
    right. exists i, a. rewrite Hst.
    split; [exact Ha|]. split; [exact Hav|]. split; [exact Ho|]. split.
    + rewrite (nth_error_update_nth _ i i a _ Ha), Nat.eqb_refl. reflexivity.
    + intros j Hj. rewrite (nth_error_update_nth _ i j a _ Ha).
      apply Nat.eqb_neq in Hj. rewrite Hj. reflexivity.
Qed.

(** X1. Selection writes nothing but the cursor and the recovery of the target
    it returns, whether it returns or raises. The settings, and the client,
    model name, name and cooldown of every target, are after the call what
    they were before it. The list of targets is after the call the list
    before it, entry for entry, or differs from it in one entry only: a
    target that was unavailable, that the call returns, and that is now
    available with its failure time cleared. *)
Theorem selection_keeps_targets_and_settings
  (clock : nat -> float) (self : chatbot) :
  let r := _get_next_available_client clock self in
  let self' := state_of r in
  (settings self' = settings self /\
   map select (api_states self') = map select (api_states self) /\
   map cooldown_until (api_states self')
   = map cooldown_until (api_states self) /\
   List.length (api_states self') = List.length (api_states self)) /\
  (api_states self' = api_states self \/
   exists i a,
     nth_error (api_states self) i = Some a /\
     is_available a = false /\
     result_of r = Returns (Some (select a)) /\
     nth_error (api_states self') i
     = Some {| is_available := true; last_failure_time := float_of_int 0;
               client := client a; model_name := model_name a;
               name := name a; cooldown_until := cooldown_until a |} /\
     forall j, j <> i ->
       nth_error (api_states self') j = nth_error (api_states self) j).
Proof.
  cbv zeta. split.
  - exact (select_effect clock self).
  - exact (select_writes clock self).
Qed.

(** X2. With the cursor inside the list, selection returns (it does not raise)
    and leaves the cursor inside the list. *)
Theorem selection_with_cursor_in_range
  (clock : nat -> float) (self : chatbot) :
  cursor_in_range self ->
  (exists r,
      result_of (_get_next_available_client clock self) = Returns r) /\
  cursor_in_range (state_of (_get_next_available_client clock self)).
Proof. exact (select_in_range clock self). Qed.

(** X3. With targets in the list and the cursor past its end, selection raises
    [IndexError]; the instance is untouched and nothing is logged. *)
Theorem selection_with_cursor_out_of_range
  (clock : nat -> float) (self : chatbot) :
  api_states self <> [] ->
  List.length (api_states self) <= _current_api_index self ->
  _get_next_available_client clock self = (Raises IndexError, self, []).
Proof. exact (select_out_of_range clock self). Qed.

(** X4. A selection that returns none has changed nothing, the cursor
    included, and has logged nothing. *)
Theorem selection_of_none_changes_nothing
  (clock : nat -> float) (self : chatbot) :
  result_of (_get_next_available_client clock self) = Returns None ->
  _get_next_available_client clock self = (Returns None, self, []).
Proof. exact (select_none clock self). Qed.

Lemma select_some (clock : nat -> float) (self self' : chatbot)
  (sel : selection) (t : list event) :
  _get_next_available_client clock self = (Returns (Some sel), self', t) ->
  exists i a a',
    nth_error (api_states self) i = Some a /\
    nth_error (api_states self') i = Some a' /\
    select a = sel /\ select a' = sel /\ is_available a' = true /\
    (forall j, j <> i ->
       nth_error (api_states self') j = nth_error (api_states self) j) /\
    _current_api_index self' = (i + 1) mod List.length (api_states self) /\
    (t = [] \/
     (t = [LogRecovered (name a)] /\ is_available a = false /\
      last_failure_time a' = float_of_int 0)).
Proof.
  intro H. rewrite select_unfold in H.
  destruct (api_states self) as [|x l] eqn:E; [discriminate|].
  rewrite <- E in *.
  apply scan_some in H.
  destruct H as (i & a & Ha & -> & Hcur & Hcase).
  destruct Hcase as [(Hav & Hst & ->)|(Hav & Hst & ->)].
  - exists i, a, a. rewrite Hst. repeat split; auto.
  - exists i, a, (recover a). rewrite Hst.
    rewrite (nth_error_update_nth _ i i a _ Ha), Nat.eqb_refl.
    repeat split; auto.
    intros j Hj. rewrite (nth_error_update_nth _ i j a _ Ha).
    apply Nat.eqb_neq in Hj. rewrite Hj. reflexivity.
Qed.

(** X5. When every target is unavailable and at no clock reading of the call
    has the elapsed time of any of them exceeded its cooldown, selection
    returns none at once and leaves the instance as it was. *)
Theorem selection_when_all_cooling (clock : nat -> float) (self : chatbot) :
  cursor_in_range self ->
  (forall b, In b (api_states self) ->
     is_available b = false /\
     forall k,
       float_gt_int (float_sub (clock k) (last_failure_time b))
         (cooldown_of self b) = false) ->
  _get_next_available_client clock self = (Returns None, self, []).
Proof.
  intros Hc Hall. unfold cursor_in_range in Hc.
  rewrite select_nonempty by lia.
  rewrite <- (Nat.add_0_r (List.length (api_states self))) at 2.
  rewrite scan_skips.
  - rewrite scan_zero.
    rewrite <- (Nat.mul_1_l (List.length (api_states self))) at 1.
    rewrite Nat.Div0.mod_add, Nat.mod_small by exact Hc.
    rewrite with_current_api_index_same. reflexivity.
  - exact Hc.
  - intros k b _ Hb. apply nth_error_In in Hb.
    destruct (Hall b Hb) as [Hav Hcd]. split; [exact Hav|].
    unfold cooldown_over, elapsed. apply Hcd.
Qed.

(** X6. The target selection returns is an entry of the list; after the call
    that entry is available, every other entry is as it was, the cursor is
    one past the entry (modulo the size), and the log holds nothing, or the
    one recovery of that target, whose failure time is then cleared. *)
Theorem selection_marks_what_it_returns
  (clock : nat -> float) (self self' : chatbot) (sel : selection)
  (t : list event) :
  _get_next_available_client clock self = (Returns (Some sel), self', t) ->
  exists i a a',
    nth_error (api_states self) i = Some a /\
    nth_error (api_states self') i = Some a' /\
    select a = sel /\ select a' = sel /\ is_available a' = true /\
    (forall j, j <> i ->
       nth_error (api_states self') j = nth_error (api_states self) j) /\
    _current_api_index self' = (i + 1) mod List.length (api_states self) /\
    (t = [] \/
     (t = [LogRecovered (name a)] /\ is_available a = false /\
      last_failure_time a' = float_of_int 0)).
Proof. exact (select_some clock self self' sel t). Qed.

(** X7. Failover: selection passes the targets that are unavailable and still
    cooling down and returns the first available one in scan order; only
    the cursor changes, to one past that target. *)
Theorem selection_skips_to_first_available
  (clock : nat -> float) (self : chatbot) (j : nat) (a : api_info) :
  let l := api_states self in
  let c := _current_api_index self in
  let at_a := (c + j) mod List.length l in
  cursor_in_range self -> j < List.length l ->
  nth_error l at_a = Some a ->
  is_available a = true ->
  (forall k b, k < j ->
     nth_error l ((c + k) mod List.length l) = Some b ->
     is_available b = false /\ cooldown_over self (clock k) b = false) ->
  _get_next_available_client clock self =
  (Returns (Some (select a)),
   with_current_api_index ((at_a + 1) mod List.length l) self, []).
Proof.
  intros l c at_a Hc Hj Ha Hav Hbefore. unfold cursor_in_range in Hc.
  rewrite select_nonempty by (fold l; lia). fold l.
  transitivity (scan clock (List.length l) 0
                  (j + S (List.length l - j - 1)) self).
  { f_equal. lia. }
  pose proof (scan_skips clock j (S (List.length l - j - 1)) 0 self Hc) as E.
  cbv zeta in E. fold l c in E. rewrite E by exact Hbefore. clear E.
  rewrite scan_step. cbn zeta.
  cbn [_current_api_index with_current_api_index api_states].
  fold l c at_a. rewrite Ha, Hav. reflexivity.
Qed.

(** ** Further properties of the handlers and of the attempt loop *)

Lemma first_with_client_found (c : client_t) :
  forall l k i a,
    first_with_client c l k = Some (i, a) ->
    k <= i /\ nth_error l (i - k) = Some a /\
    client_eqb (client a) c = true.
Proof.
  induction l as [|x l IH]; intros k i a H; cbn in H; [discriminate|].
  destruct (client_eqb (client x) c) eqn:E.
  - injection H as <- <-. rewrite Nat.sub_diag. auto.
  - apply IH in H. destruct H as (Hle & Hn & Hc).
    replace (i - k) with (S (i - S k)) by lia. cbn. split; [lia | auto].
Qed.

Lemma filter_all {A} (l : list A) : filter (fun _ => true) l = l.
Proof. induction l as [|x l IH]; cbn; congruence. Qed.

Lemma kept_refl (self self' : chatbot) :
  map select (api_states self') = map select (api_states self) ->
  kept self self'.
Proof. intro H. exists (fun _ => true). rewrite filter_all. exact H. Qed.

Lemma filter_filter {A} (p q : A -> bool) (l : list A) :
  filter q (filter p l) = filter (fun x => p x && q x) l.
Proof.
  induction l as [|x l IH]; [reflexivity|]. cbn.
  destruct (p x); cbn; [destruct (q x)|]; rewrite IH; reflexivity.
Qed.

Lemma kept_trans (s0 s1 s2 : chatbot) : kept s0 s1 -> kept s1 s2 -> kept s0 s2.
Proof.
  intros [p Hp] [q Hq]. exists (fun x => p x && q x).
  rewrite Hq, Hp. apply filter_filter.
Qed.

Lemma map_select_filter (c : client_t) (l : list api_info) :
  map select (filter (fun api => negb (client_eqb (client api) c)) l)
  = filter (fun sel => negb (client_eqb (fst (fst sel)) c)) (map select l).
Proof.
  induction l as [|x l IH]; [reflexivity|]. cbn.
  destruct (negb (client_eqb (client x) c)); cbn; rewrite IH; reflexivity.
Qed.

Ltac handler_cases H :=
  repeat (cbv beta iota zeta in H;
          match type of H with
          | context [match ?x with _ => _ end] =>
              lazymatch x with
              | context [match _ with _ => _ end] => fail
              | _ => destruct x eqn:?
              end
          end);
  cbv beta iota zeta in H.

(** What the handlers write: never the settings or the cursor; of the
    targets, only failure marks, except for the permanent removal. *)
Lemma handle_response_effect (env : attempt_env) (c : client_t)
  (api_name : string) (self self' : chatbot) (o : outcome flow)
  (t : list event) :
  handle_response env c api_name self = (o, self', t) ->
  settings self' = settings self /\
  _current_api_index self' = _current_api_index self /\
  kept self self' /\
  (response env <> APIStatusError ->
   map select (api_states self') = map select (api_states self)) /\
  Forall is_handler_event t.
Proof.
  run_handler. intro H. handler_cases H;
    injection H as <- <- <-;
    cbn [api_states with_api_states settings _current_api_index app];
    repeat match goal with
           | E : first_with_client _ _ 0 = Some _ |- _ =>
               apply first_with_client_found in E;
               rewrite Nat.sub_0_r in E; destruct E as (_ & E & _)
           end;
    (split; [reflexivity | split; [reflexivity | split; [|split]]]);
    try (repeat constructor; fail);
    try (intros _; first [reflexivity
                         | eapply map_update_nth; [eassumption|reflexivity]]);
    try (apply kept_refl; cbn [api_states with_api_states];
         first [reflexivity
               | eapply map_update_nth; [eassumption|reflexivity]]);
    try congruence;
    try (eexists; cbn [api_states with_api_states];
         apply map_select_filter).
Qed.

Lemma is_nil_true {A} (l : list A) : is_nil l = true -> l = [].
Proof. destruct l; [reflexivity | discriminate]. Qed.

Lemma is_nil_false {A} (l : list A) : is_nil l = false -> l <> [].
Proof. destruct l; [discriminate | intros _ H; discriminate H]. Qed.

(** How each kind of answer leaves the iteration. *)
Lemma handle_response_outcome (env : attempt_env) (c : client_t)
  (api_name : string) (self self' : chatbot) (o : outcome flow)
  (t : list event) :
  handle_response env c api_name self = (o, self', t) ->
  match response env with
  | Completion c0 =>
      o = Returns (Return (strip (str c0))) /\ self' = self /\ t = []
  | RateLimitError retry_after =>
      o = Returns Continue \/
      (o = Raises ValueError /\ self' = self /\
       exists h, retry_after = Some h /\ truthy h = true /\ int h = None)
  | APIStatusError =>
      (o = Returns Continue /\ api_states self' <> []) \/
      (o = Returns Break /\ api_states self' = [])
  | APIError | OtherException => o = Returns Continue
  end.
Proof.
  unfold handle_response.
  destruct (response env) as [c0|retry_after| | |]; run_handler; intro H;
    handler_cases H; injection H as <- <- <-;
    cbn [api_states with_api_states]; auto.
  - right. repeat split. eauto.
  - right. split; [reflexivity|]. apply is_nil_true. assumption.
  - left. split; [reflexivity|]. apply is_nil_false. assumption.
Qed.

(** One iteration: the settings stay, targets are kept or removed, never
    added or renamed. *)
Lemma attempt_body_effect (env : attempt_env) (messages : list message)
  (attempt : nat) (self self' : chatbot) (o : outcome flow)
  (t : list event) :
  attempt_body env messages attempt self = (o, self', t) ->
  settings self' = settings self /\
  kept self self' /\
  (response env <> APIStatusError ->
   map select (api_states self') = map select (api_states self) /\
   (cursor_in_range self -> cursor_in_range self')).
Proof.
  rewrite attempt_body_unfold.
  pose proof (select_effect (select_clock env) self) as Hsel.
  pose proof (select_in_range (select_clock env) self) as Hin.
  cbv zeta in Hsel.
  destruct (_get_next_available_client (select_clock env) self)
    as [[o1 self1] t1].
  cbn [state_of fst snd] in Hsel, Hin.
  destruct Hsel as (Hset & Hms & _ & Hlen).
  assert (Hcur : cursor_in_range self -> cursor_in_range self1)
    by (intro Hc; exact (proj2 (Hin Hc))).
  destruct o1 as [[[[c mn] an]|]|e].
  - destruct (handle_response env c an self1) as [[o2 self2] t2] eqn:Eh.
    apply handle_response_effect in Eh.
    destruct Eh as (Hset2 & Hcur2 & Hkept2 & Hms2 & _).
    intro H. injection H as <- <- <-.
    split; [congruence|]. split.
    + eapply kept_trans; [apply kept_refl; exact Hms | exact Hkept2].
    + intro Hne. specialize (Hms2 Hne). split; [congruence|].
      intro Hc. specialize (Hcur Hc). unfold cursor_in_range in *.
      rewrite Hcur2. rewrite <- (length_map select), Hms2, length_map.
      exact Hcur.
  - intro H. injection H as <- <- <-.
    split; [exact Hset|]. split; [apply kept_refl; exact Hms|].
    intros _. split; [exact Hms | exact Hcur].
  - intro H. injection H as <- <- <-.
    split; [exact Hset|]. split; [apply kept_refl; exact Hms|].
    intros _. split; [exact Hms | exact Hcur].
Qed.

(** An invariant of the iterations is an invariant of the loop, and what
    every iteration emits is what the loop emits. *)
Lemma attempts_invariant (I : chatbot -> Prop) (Q : event -> Prop)
  (env : nat -> attempt_env) (messages : list message) :
  (forall a self o self1 t1,
      I self ->
      attempt_body (env a) messages a self = (o, self1, t1) ->
      I self1 /\ Forall Q t1) ->
  forall r a self,
    I self ->
    I (state_of (attempts env messages a r self)) /\
    Forall Q (events_of (attempts env messages a r self)).
Proof.
  intros Hbody. induction r as [|r IH]; intros a self HI.
  - cbn. auto.
  - rewrite attempts_unfold.
    destruct (attempt_body (env a) messages a self) as [[o1 self1] t1] eqn:Eb.
    destruct (Hbody _ _ _ _ _ HI Eb) as [HI1 HQ1].
    destruct o1 as [[| |v]|e]; cbn [state_of events_of fst snd]; auto.
    specialize (IH (S a) self1 HI1).
    destruct (attempts env messages (S a) r self1) as [[o2 self2] t2].
    cbn [state_of events_of fst snd] in IH |- *.
    destruct IH as [IH1 IH2]. split; [exact IH1|].
    apply Forall_app. auto.
Qed.

Lemma call_state (env : nat -> attempt_env) (prompt system_prompt : string)
  (self : chatbot) :
  state_of (call env prompt system_prompt self)
  = state_of (attempts env (build_messages prompt system_prompt) 0
                (max_attempts_per_prompt self) self).
Proof.
  rewrite call_unfold.
  destruct (attempts env (build_messages prompt system_prompt) 0
              (max_attempts_per_prompt self) self) as [[[[v|]|e] s1] t1];
    reflexivity.
Qed.

Lemma requests_In (t : list event) (r : request) :
  In r (requests t) <-> In (Invoke r) t.
Proof.
  induction t as [|e t IH]; [reflexivity|].
  destruct e; cbn [requests In]; rewrite ?IH;
    try (split; [auto | intros [H|H]; [discriminate | exact H]]).
  split; intros [H|H]; auto; left; congruence.
Qed.

Lemma kept_In (s0 s1 : chatbot) (sel : selection) :
  kept s0 s1 -> In sel (map select (api_states s1)) ->
  In sel (map select (api_states s0)).
Proof.
  intros [q Hq] H. rewrite Hq in H. apply filter_In in H. tauto.
Qed.

Lemma kept_length (s0 s1 : chatbot) :
  kept s0 s1 -> List.length (api_states s1) <= List.length (api_states s0).
Proof.
  intros [q Hq]. rewrite <- (length_map select), Hq.
  rewrite <- (length_map select (api_states s0)). apply filter_length_le.
Qed.

Lemma NoDup_map_filter {A B} (f : A -> B) (q : A -> bool) (l : list A) :
  NoDup (map f l) -> NoDup (map f (filter q l)).
Proof.
  induction l as [|x l IH]; intro H; [exact H|].
  cbn in H. inversion H as [|? ? Hnot Hrest]; subst.
  cbn. destruct (q x); [|auto].
  cbn. constructor; [|auto].
  intro Hin. apply Hnot. apply in_map_iff in Hin.
  destruct Hin as (y & Hy & Hin). apply filter_In in Hin.
  apply in_map_iff. exists y. tauto.
Qed.

Lemma identity_of_select (l : list api_info) :
  map identity l = map (fun sel => client_id (fst (fst sel))) (map select l).
Proof. rewrite map_map. reflexivity. Qed.

Lemma kept_distinct (s0 s1 : chatbot) :
  kept s0 s1 ->
  NoDup (map identity (api_states s0)) ->
  NoDup (map identity (api_states s1)).
Proof.
  intros [q Hq] H. rewrite identity_of_select in *. rewrite Hq.
  apply NoDup_map_filter. exact H.
Qed.

Lemma body_event_of_recovery (t : list event) :
  Forall is_recovery t -> Forall is_body_event t.
Proof.
  apply Forall_impl. intros e He. destruct e; cbn in *; auto.
Qed.

Lemma body_event_of_handler (t : list event) :
  Forall is_handler_event t -> Forall is_body_event t.
Proof.
  apply Forall_impl. intros e He. destruct e; cbn in *; auto.
Qed.

(** One iteration sends its request, if any, to a target of the pool it
    starts from, with the settings of that pool. *)
Lemma attempt_body_requests (env : attempt_env) (messages : list message)
  (attempt : nat) (self self' : chatbot) (o : outcome flow)
  (t : list event) :
  attempt_body env messages attempt self = (o, self', t) ->
  Forall is_body_event t /\
  forall r, In (Invoke r) t -> request_from self r.
Proof.
  rewrite attempt_body_unfold.
  pose proof (select_events (select_clock env) self) as Hev.
  pose proof (select_effect (select_clock env) self) as Hsel.
  cbv zeta in Hsel.
  destruct (_get_next_available_client (select_clock env) self)
    as [[o1 self1] t1] eqn:Es.
  cbn [state_of events_of fst snd] in Hev, Hsel.
  destruct Hsel as (Hset & Hms & _).
  assert (Hno : forall r, ~ In (Invoke r) t1)
    by (intro r; apply recovery_only_not_in; [exact Hev | exact (fun x => x)]).
  destruct o1 as [[[[c mn] an]|]|e].
  - destruct (handle_response env c an self1) as [[o2 self2] t2] eqn:Eh.
    apply handle_response_effect in Eh. destruct Eh as (_ & _ & _ & _ & Hh).
    intro H. injection H as <- <- <-. split.
    + apply Forall_app. split; [apply body_event_of_recovery; exact Hev|].
      repeat constructor. apply body_event_of_handler. exact Hh.
    + intros r Hin. apply in_app_or in Hin.
      destruct Hin as [Hin|[Hin|[Hin|Hin]]]; try discriminate.
      * exfalso. exact (Hno r Hin).
      * injection Hin as <-. unfold request_from.
        cbn [req_client req_model req_temperature req_max_tokens].
        unfold settings in Hset.
        repeat split; try congruence.
        exists an. rewrite <- Hms.
        apply select_some in Es.
        destruct Es as (i & a & a' & _ & Ha' & _ & Hs & _).
        rewrite <- Hs. apply in_map. eapply nth_error_In. exact Ha'.
      * exfalso. rewrite Forall_forall in Hh. exact (Hh _ Hin).
  - intro H. injection H as <- <- <-. split.
    + apply Forall_app. split; [apply body_event_of_recovery; exact Hev|].
      repeat constructor.
    + intros r Hin. apply in_app_or in Hin.
      destruct Hin as [Hin|[Hin|[]]]; [|discriminate].
      exfalso. exact (Hno r Hin).
  - intro H. injection H as <- <- <-. split.
    + apply body_event_of_recovery. exact Hev.
    + intros r Hin. exfalso. exact (Hno r Hin).
Qed.

(** The loop keeps the settings and the targets it does not remove, and
    sends every request to a target of the pool it started from. *)
Lemma attempts_effect (env : nat -> attempt_env) (messages : list message)
  (r a : nat) (self : chatbot) :
  let self' := state_of (attempts env messages a r self) in
  let t := events_of (attempts env messages a r self) in
  (settings self' = settings self /\ kept self self') /\
  Forall (fun e => is_body_event e /\
                   forall q, e = Invoke q -> request_from self q) t.
Proof.
  apply (attempts_invariant
           (fun s => settings s = settings self /\ kept self s)
           (fun e => is_body_event e /\
                     forall q, e = Invoke q -> request_from self q)).
  - intros a0 s o s1 t1 [Hset Hkept] Hb.
    pose proof (attempt_body_effect _ _ _ _ _ _ _ Hb) as (Hset1 & Hkept1 & _).
    pose proof (attempt_body_requests _ _ _ _ _ _ _ Hb) as (Hev & Hreq).
    split; [split; [congruence | eapply kept_trans; eassumption]|].
    rewrite Forall_forall in *. intros e He. split; [auto|].
    intros q ->. destruct (Hreq q He) as ((an & Hin) & Ht & Hm).
    unfold settings in Hset. unfold request_from.
    repeat split; try congruence.
    exists an. eapply kept_In; eassumption.
  - split; [reflexivity | apply kept_refl; reflexivity].
Qed.

Lemma transient_only_not_status (r : transport_result) :
  transient_only r -> r <> APIStatusError.
Proof. intros H ->. exact H. Qed.

(** An iteration whose answer is transient, or a success, returns. *)
Lemma attempt_body_returns (env : attempt_env) (messages : list message)
  (attempt : nat) (self : chatbot) :
  transient_only (response env) -> cursor_ok self ->
  (exists f,
      result_of (attempt_body env messages attempt self) = Returns f) /\
  cursor_ok (state_of (attempt_body env messages attempt self)) /\
  map select (api_states (state_of (attempt_body env messages attempt self)))
  = map select (api_states self).
Proof.
  intros Htr Hok.
  destruct (attempt_body env messages attempt self) as [[o s1] t1] eqn:Eb.
  pose proof (attempt_body_effect _ _ _ _ _ _ _ Eb) as (_ & _ & Heff).
  specialize (Heff (transient_only_not_status _ Htr)).
  destruct Heff as [Hms Hcur]. cbn [result_of state_of fst snd].
  assert (Hok1 : cursor_ok s1).
  { destruct Hok as [Hc|He]; [left; auto|].
    right. apply (f_equal (@List.length _)) in Hms.
    rewrite !length_map, He in Hms. destruct (api_states s1);
      [reflexivity | discriminate]. }
  split; [|split; assumption].
  rewrite attempt_body_unfold in Eb.
  assert (Hsel : exists r0,
             result_of (_get_next_available_client (select_clock env) self)
             = Returns r0).
  { destruct Hok as [Hc|He].
    - exact (proj1 (select_in_range _ _ Hc)).
    - rewrite select_unfold, He. exists None. reflexivity. }
  destruct Hsel as [r0 Hr0].
  destruct (_get_next_available_client (select_clock env) self)
    as [[o1 self1] t0].
  cbn in Hr0. subst o1. destruct r0 as [[[c mn] an]|].
  - destruct (handle_response env c an self1) as [[o2 self2] t2] eqn:Eh.
    apply handle_response_outcome in Eh. injection Eb as <- _ _.
    destruct (response env) as [c0|[h|]| | |]; cbn in Htr.
    + destruct Eh as (-> & _). eauto.
    + destruct Eh as [->|(_ & _ & h' & Hh & Ht & Hi)]; [eauto|].
      injection Hh as <-. exfalso. exact (Htr Ht Hi).
    + destruct Eh as [->|(_ & _ & h' & Hh & _)]; [eauto | discriminate].
    + contradiction.
    + subst o2. eauto.
    + subst o2. eauto.
  - injection Eb as <- _ _. eauto.
Qed.

Lemma attempts_returns (env : nat -> attempt_env) (messages : list message) :
  (forall a, transient_only (response (env a))) ->
  forall r a self,
    cursor_ok self ->
    (exists o, result_of (attempts env messages a r self) = Returns o) /\
    cursor_ok (state_of (attempts env messages a r self)) /\
    map select (api_states (state_of (attempts env messages a r self)))
    = map select (api_states self).
Proof.
  intros Htr. induction r as [|r IH]; intros a self Hok.
  - cbn. eauto.
  - rewrite attempts_unfold.
    destruct (attempt_body_returns (env a) messages a self (Htr a) Hok)
      as ((f & Hf) & Hok1 & Hms1).
    destruct (attempt_body (env a) messages a self) as [[o1 self1] t1].
    cbn [result_of state_of fst snd] in Hf, Hok1, Hms1. subst o1.
    destruct f as [| |v]; cbn [result_of state_of fst snd]; eauto.
    destruct (IH (S a) self1 Hok1) as ((o & Ho) & Hok2 & Hms2).
    destruct (attempts env messages (S a) r self1) as [[o2 self2] t2].
    cbn [result_of state_of fst snd] in Ho, Hok2, Hms2 |- *. subst o2.
    split; [eauto|]. split; [exact Hok2 | congruence].
Qed.

(** The value the loop returns is the content of a successful attempt. *)
Lemma attempts_returned (env : nat -> attempt_env) (messages : list message) :
  forall r a self v,
    result_of (attempts env messages a r self) = Returns (Some v) ->
    exists a' c,
      a <= a' < a + r /\ response (env a') = Completion c /\
      v = strip (str c).
Proof.
  induction r as [|r IH]; intros a self v H.
  - discriminate.
  - rewrite attempts_unfold in H.
    destruct (attempt_body (env a) messages a self) as [[o1 self1] t1] eqn:Eb.
    destruct o1 as [[| |v']|e]; try discriminate.
    + destruct (attempts env messages (S a) r self1) as [[o2 self2] t2] eqn:Er.
      cbn in H. subst o2.
      destruct (IH (S a) self1 v) as (a' & c & Ha' & Hc & Hv).
      { rewrite Er. reflexivity. }
      exists a', c. split; [lia | auto].
    + cbn in H. injection H as ->.
      rewrite attempt_body_unfold in Eb.
      destruct (_get_next_available_client (select_clock (env a)) self)
        as [[[[[[c mn] an]|]|e] self0] t0]; try discriminate.
      destruct (handle_response (env a) c an self0) as [[o2 self2] t2] eqn:Eh.
      apply handle_response_outcome in Eh. injection Eb as -> _ _.
      destruct (response (env a)) as [c0|ra| | |] eqn:Er.
      * destruct Eh as (Ho & _). injection Ho as ->.
        exists a, c0. split; [lia | auto].
      * destruct Eh as [Ho|(Ho & _)]; discriminate.
      * destruct Eh as [(Ho & _)|(Ho & _)]; discriminate.
      * discriminate.
      * discriminate.
Qed.

(** X8. A call keeps the settings and every target it does not remove: the
    pool after it holds targets of the pool before it, in the same order,
    with the same client, model name and name; it has no more targets, and
    clients that were distinct stay distinct. *)
Theorem call_keeps_settings_and_adds_no_target
  (env : nat -> attempt_env) (prompt system_prompt : string)
  (self : chatbot) :
  let self' := state_of (call env prompt system_prompt self) in
  settings self' = settings self /\
  kept self self' /\
  List.length (api_states self') <= List.length (api_states self) /\
  (NoDup (map identity (api_states self)) ->
   NoDup (map identity (api_states self'))).
Proof.
  cbv zeta. rewrite call_state.
  destruct (attempts_effect env (build_messages prompt system_prompt)
              (max_attempts_per_prompt self) 0 self) as ((Hset & Hkept) & _).
  split; [exact Hset|]. split; [exact Hkept|].
  split; [apply kept_length | apply kept_distinct]; exact Hkept.
Qed.

Lemma call_requests_from (env : nat -> attempt_env)
  (prompt system_prompt : string) (self : chatbot) (r : request) :
  In r (requests (events_of (call env prompt system_prompt self))) ->
  request_from self r.
Proof.
  intro Hin. apply requests_In in Hin. rewrite call_unfold in Hin.
  destruct (attempts_effect env (build_messages prompt system_prompt)
              (max_attempts_per_prompt self) 0 self) as (_ & Hev).
  cbv zeta in Hev. rewrite Forall_forall in Hev.
  destruct (attempts env (build_messages prompt system_prompt) 0
              (max_attempts_per_prompt self) self) as [[[[v|]|e] s1] t1];
    cbn [events_of snd] in Hin, Hev.
  - exact (proj2 (Hev _ Hin) r eq_refl).
  - apply in_app_or in Hin. destruct Hin as [Hin|[Hin|[]]]; [|discriminate].
    exact (proj2 (Hev _ Hin) r eq_refl).
  - exact (proj2 (Hev _ Hin) r eq_refl).
Qed.

(** X9. Every request of a call goes to the client of a target that was in
    the pool when the call began, with the model name of that target and
    the temperature and token limit of the instance. *)
Theorem call_sends_requests_to_pool_targets
  (env : nat -> attempt_env) (prompt system_prompt : string)
  (self : chatbot) (r : request) :
  In r (requests (events_of (call env prompt system_prompt self))) ->
  (exists api_name,
      In (req_client r, req_model r, api_name)
        (map select (api_states self))) /\
  req_temperature r = temperature self /\
  req_max_tokens r = max_tokens self.
Proof. exact (call_requests_from env prompt system_prompt self r). Qed.

(** X10. When no attempt meets a permanent status error, and every rate limit
    comes with a [retry-after] header that is absent, empty or an integer
    literal [int] reads (of no more than 4300 digits, the interpreter's
    limit), a call on a pool whose cursor is in range (or that is empty)
    returns a string; it removes no target and leaves the cursor in
    range. *)
Theorem call_returns_when_failures_are_transient
  (env : nat -> attempt_env) (prompt system_prompt : string)
  (self : chatbot) :
  (forall a, transient_only (response (env a))) ->
  cursor_ok self ->
  (exists v, result_of (call env prompt system_prompt self) = Returns v) /\
  cursor_ok (state_of (call env prompt system_prompt self)) /\
  map select (api_states (state_of (call env prompt system_prompt self)))
  = map select (api_states self).
Proof.
  intros Htr Hok. rewrite call_state.
  destruct (attempts_returns env (build_messages prompt system_prompt) Htr
              (max_attempts_per_prompt self) 0 self Hok)
    as ((o & Ho) & Hok1 & Hms).
  split; [|split; assumption].
  rewrite call_unfold.
  destruct (attempts env (build_messages prompt system_prompt) 0
              (max_attempts_per_prompt self) self) as [[o1 s1] t1].
  cbn in Ho. subst o1. destruct o; cbn [result_of fst]; eauto.
Qed.

Lemma settings_budget (s0 s1 : chatbot) :
  settings s1 = settings s0 ->
  max_attempts_per_prompt s1 = max_attempts_per_prompt s0.
Proof. unfold settings. intro H. congruence. Qed.

Lemma body_event_not_exhausted (t : list event) (k : nat) :
  Forall is_body_event t -> ~ In (LogExhausted k) t.
Proof.
  intros H Hin. rewrite Forall_forall in H. exact (H _ Hin).
Qed.

Lemma call_result_cases
  (env : nat -> attempt_env) (prompt system_prompt : string)
  (self : chatbot) (v : string) :
  result_of (call env prompt system_prompt self) = Returns v ->
  let t := events_of (call env prompt system_prompt self) in
  let K := max_attempts_per_prompt self in
  (v = failure_result /\ In (LogExhausted K) t)
  \/
  ((exists a c,
       a < K /\ response (env a) = Completion c /\ v = strip (str c))
   /\ forall k, ~ In (LogExhausted k) t).
Proof.
  cbv zeta. rewrite call_unfold.
  destruct (attempts_effect env (build_messages prompt system_prompt)
              (max_attempts_per_prompt self) 0 self) as ((Hset & _) & Hev).
  cbv zeta in Hev.
  pose proof (attempts_returned env (build_messages prompt system_prompt)
                (max_attempts_per_prompt self) 0 self) as Hret.
  destruct (attempts env (build_messages prompt system_prompt) 0
              (max_attempts_per_prompt self) self) as [[[[v'|]|e] s1] t1];
    cbn [result_of state_of events_of fst snd] in *; intro H;
    try discriminate; injection H as <-.
  - right. split.
    + destruct (Hret v' eq_refl) as (a & c & Ha & Hc & Hv).
      exists a, c. split; [lia | auto].
    + intro k. apply body_event_not_exhausted.
      eapply Forall_impl; [|exact Hev]. cbn. tauto.
  - left. split; [reflexivity|].
    rewrite (settings_budget _ _ Hset). apply in_or_app. right. left.
    reflexivity.
Qed.

(** X11. What a call returns is the failure string, after the loop has ended
    and its exhaustion has been logged, or the stripped content of a
    successful attempt within the budget, and then no exhaustion is
    logged. *)
Theorem call_returns_failure_string_or_content
  (env : nat -> attempt_env) (prompt system_prompt : string)
  (self : chatbot) (v : string) :
  result_of (call env prompt system_prompt self) = Returns v ->
  let t := events_of (call env prompt system_prompt self) in
  let K := max_attempts_per_prompt self in
  (v = failure_result /\ In (LogExhausted K) t)
  \/
  ((exists a c,
       a < K /\ response (env a) = Completion c /\ v = strip (str c))
   /\ forall k, ~ In (LogExhausted k) t).
Proof. exact (call_result_cases env prompt system_prompt self v). Qed.

(** X12. When the first selection of a call finds no client (the pool is empty,
    or every target is cooling down), the call returns the failure string
    at once: no request is sent, the instance is left as it was, and the
    log holds the two lines of the failure. The budget must allow one
    attempt. *)
Theorem call_fails_at_once_when_none_available
  (env : nat -> attempt_env) (prompt system_prompt : string)
  (self : chatbot) :
  1 <= max_attempts_per_prompt self ->
  result_of (_get_next_available_client (select_clock (env 0)) self)
  = Returns None ->
  call env prompt system_prompt self =
  (Returns failure_result, self,
   [LogNoneAvailable; LogExhausted (max_attempts_per_prompt self)]).
Proof.
  intros HK Hsel. rewrite call_unfold.
  destruct (max_attempts_per_prompt self) as [|k] eqn:EK; [lia|].
  rewrite attempts_unfold, attempt_body_unfold.
  rewrite (select_none _ _ Hsel). cbn [app]. rewrite EK. reflexivity.
Qed.

Lemma attempt_logs_app (t1 t2 : list event) :
  attempt_logs (t1 ++ t2) = attempt_logs t1 ++ attempt_logs t2.
Proof.
  induction t1 as [|e t1 IH]; [reflexivity|].
  destruct e; cbn [app attempt_logs]; rewrite IH; reflexivity.
Qed.

Lemma attempt_logs_of_recoveries (t : list event) :
  Forall is_recovery t -> attempt_logs t = [].
Proof.
  induction 1 as [|e t He _ IH]; [reflexivity|].
  destruct e; cbn in He; try contradiction. exact IH.
Qed.

Lemma attempt_logs_of_handlers (t : list event) :
  Forall is_handler_event t -> attempt_logs t = [].
Proof.
  induction 1 as [|e t He _ IH]; [reflexivity|].
  destruct e; cbn in He; try contradiction; exact IH.
Qed.

Lemma attempt_body_numbering (env : attempt_env) (messages : list message)
  (attempt : nat) (self self' : chatbot) (o : outcome flow)
  (t : list event) :
  attempt_body env messages attempt self = (o, self', t) ->
  (attempt_logs t = [] /\ invocations t = 0 /\ o <> Returns Continue)
  \/
  (attempt_logs t = [(attempt + 1, max_attempts_per_prompt self)] /\
   invocations t = 1).
Proof.
  rewrite attempt_body_unfold.
  pose proof (select_events (select_clock env) self) as Hev.
  pose proof (select_effect (select_clock env) self) as Hsel.
  cbv zeta in Hsel.
  destruct (_get_next_available_client (select_clock env) self)
    as [[o1 self1] t1].
  cbn [state_of events_of fst snd] in Hev, Hsel.
  destruct Hsel as (Hset & _).
  pose proof (attempt_logs_of_recoveries _ Hev) as Hl1.
  pose proof (recovery_only_requests _ Hev) as Hr1.
  destruct o1 as [[[[c mn] an]|]|e].
  - destruct (handle_response env c an self1) as [[o2 self2] t2] eqn:Eh.
    pose proof (handle_response_events _ _ _ _ _ _ _ Eh) as (Hr2 & _).
    apply handle_response_effect in Eh. destruct Eh as (_ & _ & _ & _ & Hh).
    intro H. injection H as <- <- <-. right.
    unfold invocations.
    rewrite attempt_logs_app, requests_app, Hl1, Hr1.
    cbn [attempt_logs requests app List.length].
    rewrite (attempt_logs_of_handlers _ Hh), Hr2.
    rewrite (settings_budget _ _ Hset). auto.
  - intro H. injection H as <- <- <-. left.
    unfold invocations. rewrite attempt_logs_app, requests_app, Hl1, Hr1.
    cbn. repeat split. discriminate.
  - intro H. injection H as <- <- <-. left.
    unfold invocations. rewrite Hl1, Hr1. cbn. repeat split. discriminate.
Qed.

Lemma attempts_numbering (env : nat -> attempt_env)
  (messages : list message) :
  forall r a self,
    let t := events_of (attempts env messages a r self) in
    attempt_logs t
    = map (fun i => (i, max_attempts_per_prompt self))
        (seq (a + 1) (invocations t)).
Proof.
  induction r as [|r IH]; intros a self; cbv zeta.
  - reflexivity.
  - rewrite attempts_unfold.
    destruct (attempt_body (env a) messages a self) as [[o1 self1] t1] eqn:Eb.
    pose proof (attempt_body_effect _ _ _ _ _ _ _ Eb) as (Hset & _).
    apply attempt_body_numbering in Eb.
    assert (Hstop : attempt_logs t1
                    = map (fun i => (i, max_attempts_per_prompt self))
                        (seq (a + 1) (invocations t1))).
    { destruct Eb as [(-> & -> & _)|(-> & ->)]; reflexivity. }
    destruct o1 as [[| |v]|e]; cbn [events_of snd]; try exact Hstop.
    destruct Eb as [(_ & _ & Hne)|(Hl & Hn)]; [congruence|].
    specialize (IH (S a) self1). cbv zeta in IH.
    destruct (attempts env messages (S a) r self1) as [[o2 self2] t2].
    cbn [events_of snd] in IH |- *.
    rewrite attempt_logs_app, invocations_app, Hl, Hn, IH.
    rewrite (settings_budget _ _ Hset).
    replace (S a + 1) with (S (a + 1)) by lia. reflexivity.
Qed.

(** X13. The "Attempt i/K" lines of a call are numbered 1, 2, ... in order,
    all with the budget K of the instance, and there is one such line per
    request sent. *)
Theorem call_numbers_its_attempts
  (env : nat -> attempt_env) (prompt system_prompt : string)
  (self : chatbot) :
  let t := events_of (call env prompt system_prompt self) in
  attempt_logs t
  = map (fun i => (i, max_attempts_per_prompt self))
      (seq 1 (invocations t)).
Proof.
  cbv zeta. rewrite call_unfold.
  pose proof (attempts_numbering env (build_messages prompt system_prompt)
                (max_attempts_per_prompt self) 0 self) as H.
  cbv zeta in H.
  destruct (attempts env (build_messages prompt system_prompt) 0
              (max_attempts_per_prompt self) self) as [[[[v|]|e] s1] t1];
    cbn [events_of snd] in H |- *; try exact H.
  rewrite attempt_logs_app, invocations_app. cbn [attempt_logs invocations
    requests List.length]. rewrite app_nil_r, Nat.add_0_r. exact H.
Qed.

(** ** Removal and rate limiting, seen from the next selection *)

Lemma select_sound (clock : nat -> float) (self self' : chatbot)
  (sel : selection) (t : list event) :
  _get_next_available_client clock self = (Returns (Some sel), self', t) ->
  exists i a k,
    nth_error (api_states self) i = Some a /\ sel = select a /\
    (is_available a = true \/ cooldown_over self (clock k) a = true).
Proof.
  rewrite select_unfold.
  destruct (api_states self) as [|x l] eqn:E; [discriminate|].
  rewrite <- E. apply scan_sound.
Qed.

Lemma same_identity_same_index (l : list api_info) (i j : nat)
  (a b : api_info) :
  NoDup (map identity l) ->
  nth_error l i = Some a -> nth_error l j = Some b ->
  identity a = identity b -> i = j.
Proof.
  intros Hnd Hi Hj Hid.
  assert (Hlt : i < List.length (map identity l)).
  { rewrite length_map. apply nth_error_Some. congruence. }
  apply (proj1 (NoDup_nth_error (map identity l)) Hnd i j Hlt).
  rewrite !nth_error_map, Hi, Hj. cbn. congruence.
Qed.

Lemma first_with_client_none (c : client_t) :
  forall l k a,
    first_with_client c l k = None -> In a l ->
    client_eqb (client a) c = false.
Proof.
  induction l as [|x l IH]; intros k a H Hin; [contradiction|].
  cbn in H. destruct (client_eqb (client x) c) eqn:E; [discriminate|].
  destruct Hin as [<-|Hin]; [exact E | eauto].
Qed.

Lemma client_eqb_identity (a : api_info) (c : client_t) :
  client_eqb (client a) c = true <-> identity a = client_id c.
Proof. unfold client_eqb, identity. apply Nat.eqb_eq. Qed.

(** What one iteration that sends a request looks like: the selection
    returned the client of the request, from a pool with the same targets. *)
Lemma attempt_body_sent (env : attempt_env) (messages : list message)
  (attempt : nat) (self self' : chatbot) (o : outcome flow)
  (t : list event) (r : request) :
  attempt_body env messages attempt self = (o, self', t) ->
  In (Invoke r) t ->
  exists self1 t1 t2 api_name,
    _get_next_available_client (select_clock env) self
    = (Returns (Some (req_client r, req_model r, api_name)), self1, t1) /\
    handle_response env (req_client r) api_name self1 = (o, self', t2).
Proof.
  rewrite attempt_body_unfold.
  pose proof (select_events (select_clock env) self) as Hev.
  destruct (_get_next_available_client (select_clock env) self)
    as [[o1 self1] t1].
  cbn [events_of snd] in Hev.
  assert (Hno : ~ In (Invoke r) t1)
    by (apply recovery_only_not_in; [exact Hev | exact (fun x => x)]).
  destruct o1 as [[[[c mn] an]|]|e].
  - destruct (handle_response env c an self1) as [[o2 self2] t2] eqn:Eh.
    intros H Hin. injection H as <- <- <-.
    pose proof (handle_response_effect _ _ _ _ _ _ _ Eh)
      as (_ & _ & _ & _ & Hh).
    apply in_app_or in Hin. destruct Hin as [Hin|[Hin|[Hin|Hin]]];
      try discriminate; try contradiction.
    + injection Hin as <-. cbn [req_client req_model].
      exists self1, t1, t2, an. auto.
    + exfalso. rewrite Forall_forall in Hh. exact (Hh _ Hin).
  - intros H Hin. injection H as <- <- <-.
    apply in_app_or in Hin. destruct Hin as [Hin|[Hin|[]]];
      [contradiction | discriminate].
  - intros H Hin. injection H as <- <- <-. contradiction.
Qed.

Lemma handle_status_error_removes (env : attempt_env) (c : client_t)
  (api_name : string) (self self' : chatbot) (o : outcome flow)
  (t : list event) :
  handle_response env c api_name self = (o, self', t) ->
  response env = APIStatusError ->
  api_states self'
  = filter (fun api => negb (client_eqb (client api) c)) (api_states self).
Proof.
  unfold handle_response. intros H Hr. rewrite Hr in H. revert H.
  run_handler. intro H. handler_cases H; injection H as _ <- _; reflexivity.
Qed.

Lemma filter_keeps_others (c : client_t) (l : list api_info) :
  (forall a, In a l -> identity a <> client_id c) ->
  filter (fun api => negb (client_eqb (client api) c)) l = l.
Proof.
  induction l as [|x l IH]; intro H; [reflexivity|]. cbn.
  destruct (client_eqb (client x) c) eqn:E.
  - apply client_eqb_identity in E. exfalso. exact (H x (or_introl eq_refl) E).
  - cbn. rewrite IH; [reflexivity|]. intros a Ha. apply H. right. exact Ha.
Qed.

Lemma filter_removes_one (c : client_t) (l : list api_info) :
  NoDup (map identity l) ->
  (exists a, In a l /\ identity a = client_id c) ->
  List.length (filter (fun api => negb (client_eqb (client api) c)) l) + 1
  = List.length l.
Proof.
  induction l as [|x l IH]; intros Hnd (a & Hin & Hid); [contradiction|].
  cbn in Hnd. inversion Hnd as [|? ? Hnot Hrest]; subst. cbn [filter].
  destruct (client_eqb (client x) c) eqn:E; cbn [negb List.length].
  - apply client_eqb_identity in E. rewrite filter_keeps_others; [lia|].
    intros b Hb Hbid. apply Hnot. apply in_map_iff. exists b.
    split; [congruence | exact Hb].
  - rewrite <- (IH Hrest); [lia|].
    destruct Hin as [<-|Hin].
    + apply client_eqb_identity in Hid. congruence.
    + eauto.
Qed.

(** X14. An attempt that ends in a permanent status error removes exactly the
    target it used (clients being distinct): the pool has one target
    fewer, none with that client, and neither a later selection nor a later
    call ever reaches that client again. *)
Theorem removed_target_is_never_used_again
  (env : attempt_env) (messages : list message) (attempt : nat)
  (self self' : chatbot) (o : outcome flow) (t : list event) (r : request) :
  NoDup (map identity (api_states self)) ->
  attempt_body env messages attempt self = (o, self', t) ->
  response env = APIStatusError ->
  In (Invoke r) t ->
  List.length (api_states self') + 1 = List.length (api_states self) /\
  (forall b, In b (api_states self') ->
             identity b <> client_id (req_client r)) /\
  (forall clock sel,
      result_of (_get_next_available_client clock self')
      = Returns (Some sel) ->
      client_id (fst (fst sel)) <> client_id (req_client r)) /\
  (forall env' prompt system_prompt r',
      In r' (requests (events_of (call env' prompt system_prompt self'))) ->
      client_id (req_client r') <> client_id (req_client r)).
Proof.
  intros Hnd Hb Hresp Hin.
  destruct (attempt_body_sent _ _ _ _ _ _ _ _ Hb Hin)
    as (self1 & t1 & t2 & an & Hsel & Hh).
  pose proof (select_effect (select_clock env) self) as Heff.
  cbv zeta in Heff. rewrite Hsel in Heff. cbn [state_of fst snd] in Heff.
  destruct Heff as (_ & Hms & _ & Hlen).
  assert (Hnd1 : NoDup (map identity (api_states self1)))
    by (rewrite identity_of_select, Hms, <- identity_of_select; exact Hnd).
  apply select_some in Hsel.
  destruct Hsel as (i & a & a' & _ & Ha' & _ & Hs & _).
  assert (Hid : identity a' = client_id (req_client r))
    by (unfold identity; unfold select in Hs; congruence).
  rewrite (handle_status_error_removes _ _ _ _ _ _ _ Hh Hresp).
  assert (Hgone : forall b,
             In b (filter
                     (fun api => negb (client_eqb (client api) (req_client r)))
                     (api_states self1)) ->
             identity b <> client_id (req_client r)).
  { intros b Hbin Hbid. apply filter_In in Hbin. destruct Hbin as [_ Hneg].
    apply client_eqb_identity in Hbid. rewrite Hbid in Hneg. discriminate. }
  split; [|split; [exact Hgone | split]].
  - rewrite <- Hlen. apply filter_removes_one; [exact Hnd1|].
    exists a'. split; [eapply nth_error_In; exact Ha' | exact Hid].
  - intros clock sel Hres.
    destruct (_get_next_available_client clock self') as [[o3 s3] t3] eqn:E3.
    cbn in Hres. subst o3. apply select_some in E3.
    destruct E3 as (j & b & _ & Hbj & _ & Hsb & _).
    rewrite (handle_status_error_removes _ _ _ _ _ _ _ Hh Hresp) in Hbj.
    apply nth_error_In in Hbj. apply Hgone in Hbj.
    rewrite <- Hsb. exact Hbj.
  - intros env' prompt system_prompt r' Hr'.
    apply call_requests_from in Hr'. destruct Hr' as ((an' & Hin') & _).
    apply in_map_iff in Hin'. destruct Hin' as (b & Hsb & Hbin).
    rewrite (handle_status_error_removes _ _ _ _ _ _ _ Hh Hresp) in Hbin.
    apply Hgone in Hbin. unfold identity in Hbin. unfold select in Hsb.
    congruence.
Qed.

Lemma handle_rate_limit_marks (env : attempt_env) (c : client_t)
  (api_name : string) (self self' : chatbot) (o : outcome flow)
  (t : list event) (retry_after : option string) (d : Z) (i : nat)
  (a : api_info) :
  handle_response env c api_name self = (o, self', t) ->
  response env = RateLimitError retry_after ->
  match retry_after with
  | Some h => if truthy h then int h = Some d else d = cooldown_period self
  | None => d = cooldown_period self
  end ->
  first_with_client c (api_states self) 0 = Some (i, a) ->
  o = Returns Continue /\
  self' = with_api_states
            (update_nth i (mark_rate_limited (failure_clock env) d a)
               (api_states self)) self.
Proof.
  unfold handle_response. intros H Hr Hd Hf. rewrite Hr in H. revert H.
  run_handler. rewrite Hf. cbv beta iota.
  destruct retry_after as [h|]; [destruct (truthy h); [rewrite Hd|]|];
    cbv beta iota; intro H; injection H as <- <- _; subst; auto.
Qed.

(** X15. An attempt that is rate limited, with a [retry-after] header that
    is absent, empty or read by [int] as the integer [d] (a literal of no
    more than 4300 digits), leaves the loop going and marks the target it
    used: unavailable since the clock reading of the handler, with the
    delay [d] of the header when there is one, the default cooldown
    otherwise. A selection during which the elapsed time, as the code
    computes it in double precision, never exceeds that delay returns none
    or another client. The pool has its cursor in range and distinct
    clients. *)
Theorem rate_limited_target_rests_for_its_delay
  (env : attempt_env) (messages : list message) (attempt : nat)
  (self self' : chatbot) (o : outcome flow) (t : list event) (r : request)
  (retry_after : option string) (d : Z) :
  cursor_in_range self ->
  NoDup (map identity (api_states self)) ->
  attempt_body env messages attempt self = (o, self', t) ->
  In (Invoke r) t ->
  response env = RateLimitError retry_after ->
  match retry_after with
  | Some h => if truthy h then int h = Some d else d = cooldown_period self
  | None => d = cooldown_period self
  end ->
  o = Returns Continue /\
  (exists b,
      In b (api_states self') /\ client b = req_client r /\
      is_available b = false /\
      last_failure_time b = failure_clock env /\
      cooldown_until b = Some d) /\
  (forall clock,
      (forall k,
          float_gt_int (float_sub (clock k) (failure_clock env)) d = false) ->
      exists x,
        result_of (_get_next_available_client clock self') = Returns x /\
        forall sel, x = Some sel -> fst (fst sel) <> req_client r).
Proof.
  intros Hc Hnd Hb Hresp_in Hresp Hd.
  destruct (attempt_body_sent _ _ _ _ _ _ _ _ Hb Hresp_in)
    as (self1 & t1 & t2 & an & Hsel & Hh).
  pose proof (select_effect (select_clock env) self) as Heff.
  pose proof (select_in_range (select_clock env) self Hc) as [_ Hc1].
  cbv zeta in Heff. rewrite Hsel in Heff, Hc1.
  cbn [state_of fst snd] in Heff, Hc1.
  destruct Heff as (Hset & Hms & _ & Hlen).
  assert (Hnd1 : NoDup (map identity (api_states self1)))
    by (rewrite identity_of_select, Hms, <- identity_of_select; exact Hnd).
  apply select_some in Hsel.
  destruct Hsel as (i & a & a' & _ & Ha' & _ & Hs & _).
  assert (Hcl : client a' = req_client r)
    by (unfold select in Hs; congruence).
  destruct (first_with_client (req_client r) (api_states self1) 0)
    as [[i' a'']|] eqn:Ef.
  2:{ pose proof (first_with_client_none _ _ _ a' Ef
                    (nth_error_In _ _ Ha')) as Hneq.
      unfold client_eqb in Hneq. rewrite Hcl, Nat.eqb_refl in Hneq.
      discriminate. }
  pose proof (first_with_client_found _ _ _ _ _ Ef) as (_ & Ha'' & Heq).
  rewrite Nat.sub_0_r in Ha''. apply client_eqb_identity in Heq.
  assert (Hii : i' = i).
  { eapply same_identity_same_index; try eassumption.
    unfold identity at 2. rewrite Hcl. exact Heq. }
  subst i'. assert (a'' = a') by congruence. subst a''.
  assert (Hd1 : match retry_after with
                | Some h => if truthy h then int h = Some d
                            else d = cooldown_period self1
                | None => d = cooldown_period self1
                end).
  { unfold settings in Hset.
    replace (cooldown_period self1) with (cooldown_period self) by congruence.
    exact Hd. }
  destruct (handle_rate_limit_marks _ _ _ _ _ _ _ _ _ _ _ Hh Hresp Hd1 Ef)
    as [-> ->].
  set (b := mark_rate_limited (failure_clock env) d a').
  assert (Hbi : nth_error (update_nth i b (api_states self1)) i = Some b)
    by (rewrite (nth_error_update_nth _ i i a' b Ha'), Nat.eqb_refl;
        reflexivity).
  split; [reflexivity|]. split.
  - exists b. cbn [api_states with_api_states].
    split; [eapply nth_error_In; exact Hbi|]. auto.
  - intros clock Hearly.
    set (s2 := with_api_states (update_nth i b (api_states self1)) self1).
    assert (Hms2 : map identity (api_states s2)
                   = map identity (api_states self1))
      by (apply (map_update_nth _ _ _ a'); [exact Ha' | reflexivity]).
    assert (Hc2 : cursor_in_range s2).
    { unfold cursor_in_range in *. cbn [s2 _current_api_index api_states
        with_api_states]. rewrite <- (length_map identity).
      change (update_nth i b (api_states self1)) with (api_states s2).
      rewrite Hms2, length_map. exact Hc1. }
    destruct (select_in_range clock s2 Hc2) as [[x Hx] _].
    exists x. split; [exact Hx|]. intros sel -> Hfst.
    destruct (_get_next_available_client clock s2) as [[o3 s3] t3] eqn:E3.
    cbn in Hx. subst o3. apply select_sound in E3.
    destruct E3 as (j & a3 & k & Hj & Hs3 & Hor).
    assert (Hji : j = i).
    { eapply (same_identity_same_index (api_states s2));
        [rewrite Hms2; exact Hnd1 | exact Hj | exact Hbi |].
      unfold identity. subst sel. cbn in Hfst. rewrite Hfst, <- Hcl.
      reflexivity. }
    subst j. cbn [s2 api_states with_api_states] in Hj.
    rewrite Hbi in Hj. injection Hj as <-.
    destruct Hor as [Hor|Hor]; [discriminate|].
    unfold cooldown_over, elapsed in Hor.
    cbn [last_failure_time cooldown_of cooldown_until b mark_rate_limited]
      in Hor.
    rewrite (Hearly k) in Hor. discriminate.
Qed.

(** ** Construction *)

Lemma init_loop_effect (openai_ok : option string -> string -> bool)
  (base_url mn : option string) :
  forall api_keys i self,
    let r := init_loop openai_ok base_url mn i api_keys self in
    result_of r = Returns tt /\
    settings (state_of r) = settings self /\
    _current_api_index (state_of r) = _current_api_index self /\
    exists new,
      api_states (state_of r) = api_states self ++ new /\
      map api_key_of new = filter (openai_ok base_url) api_keys /\
      Forall (fresh_target base_url mn) new.
Proof.
  induction api_keys as [|api_key rest IH]; intros i self; cbv zeta.
  - cbn. repeat split. exists []. rewrite app_nil_r. auto.
  - cbn [init_loop filter]. unfold bind, get. cbv beta iota.
    destruct (openai_ok base_url api_key).
    + unfold modify. cbv beta iota.
      match goal with
      | |- context [init_loop _ _ _ (S i) rest ?s1] =>
          specialize (IH (S i) s1); cbv zeta in IH;
          destruct (init_loop openai_ok base_url mn (S i) rest s1)
            as [[o2 s2] t2]
      end.
      cbn [result_of state_of fst snd api_states with_api_states] in IH |- *.
      destruct IH as (-> & Hset & Hcur & new & Hst & Hkeys & Hfresh).
      repeat split; try assumption.
      eexists (_ :: new). rewrite Hst, <- app_assoc. cbn [app].
      split; [reflexivity|]. split.
      * cbn [map]. rewrite Hkeys. reflexivity.
      * constructor; [|exact Hfresh]. repeat split.
    + unfold emit. cbv beta iota.
      specialize (IH (S i) self). cbv zeta in IH.
      destruct (init_loop openai_ok base_url mn (S i) rest self)
        as [[o2 s2] t2].
      cbn [result_of state_of fst snd] in IH |- *.
      destruct IH as (-> & Hset & Hcur & new & Hst & Hkeys & Hfresh).
      repeat split; try assumption. exists new. auto.
Qed.

(** Construction, told by its loop: with a list of keys the instance is
    what the loop over the keys leaves, and the constructor exits exactly
    when that is empty; with a null for the keys the enumeration raises. *)
Lemma init_by_loop (openai_ok : option string -> string -> bool)
  (model_key : string) (llm_config : list (string * llm_entry)) :
  let entry := dict_get llm_config model_key empty_entry in
  let self0 :=
    with_sampling
      (field_get (cfg_temperature entry) (Some (7 # 10)))
      (field_get (cfg_max_tokens entry) (Some 4096%Z))
      {| model := model_key; api_states := []; _current_api_index := 0;
         cooldown_period := 300; max_attempts_per_prompt := 5;
         temperature := Some (7 # 10); max_tokens := Some 4096%Z |} in
  let r := __init__ openai_ok model_key llm_config in
  match keys_of entry with
  | Some keys =>
      let loop := init_loop openai_ok (field_get (cfg_base_url entry) None)
                    (field_get (cfg_model entry) None) 0 keys self0 in
      state_of r = state_of loop /\
      result_of r = if is_nil (api_states (state_of loop))
                    then Raises SystemExit else Returns tt
  | None => state_of r = self0 /\ result_of r = Raises TypeError
  end.
Proof.
  cbv zeta. unfold __init__, _initialize_clients, keys_of.
  set (entry := dict_get llm_config model_key empty_entry).
  destruct (field_get (cfg_api_keys entry) (Some [])) as [keys|];
    unfold bind, get, modify; cbv beta iota;
    cbn [temperature max_tokens];
    match goal with
    | |- context [if ?b then emit _ else ret tt] => destruct b
    end;
    unfold emit, ret, raise; cbv beta iota;
    try (split; reflexivity);
    match goal with
    | |- context [init_loop _ ?bu ?mn 0 ?ks ?s1] =>
        pose proof (init_loop_effect openai_ok bu mn ks 0 s1) as H;
        cbv zeta in H;
        destruct (init_loop openai_ok bu mn 0 ks s1) as [[o2 s2] t2]
    end;
    cbn [result_of state_of fst snd] in H |- *;
    destruct H as (-> & _);
    destruct (is_nil (api_states s2)); auto.
Qed.

Lemma init_targets (openai_ok : option string -> string -> bool)
  (model_key : string) (llm_config : list (string * llm_entry)) :
  let entry := dict_get llm_config model_key empty_entry in
  let base_url := field_get (cfg_base_url entry) None in
  let r := __init__ openai_ok model_key llm_config in
  (Forall (fresh_target base_url (field_get (cfg_model entry) None))
     (api_states (state_of r)) /\
   _current_api_index (state_of r) = 0 /\
   settings (state_of r)
   = (model_key, 300%Z, 5,
      field_get (cfg_temperature entry) (Some (7 # 10)),
      field_get (cfg_max_tokens entry) (Some 4096%Z))) /\
  match keys_of entry with
  | Some keys =>
      map api_key_of (api_states (state_of r))
      = filter (openai_ok base_url) keys /\
      result_of r = if is_nil (api_states (state_of r))
                    then Raises SystemExit else Returns tt
  | None => api_states (state_of r) = [] /\ result_of r = Raises TypeError
  end.
Proof.
  cbv zeta.
  pose proof (init_by_loop openai_ok model_key llm_config) as H.
  cbv zeta in H.
  destruct (keys_of (dict_get llm_config model_key empty_entry)) as [keys|].
  - destruct H as [Hst Hres]. rewrite Hres, Hst.
    match goal with
    | |- context [init_loop _ ?bu ?mn 0 ?ks ?s0] =>
        destruct (init_loop_effect openai_ok bu mn ks 0 s0)
          as (_ & Hset & Hcur & new & Hnew & Hkeys & Hfresh)
    end.
    rewrite Hnew, Hset, Hcur. cbn [api_states with_sampling app].
    auto.
  - destruct H as [Hst Hres]. rewrite Hres, Hst.
    cbn [api_states with_sampling]. repeat split. constructor.
Qed.

(** X16. Construction reads [api_keys] with the default []. When that is a
    list, it builds one target per key whose client can be built, in the
    order of the keys; it returns when there is at least one and exits the
    process when there is none (no record for the model, no keys, or no
    client that could be built). When the record holds a null under
    [api_keys], enumerating it raises [TypeError] and no target is built. *)
Theorem construction_builds_one_target_per_usable_key
  (openai_ok : option string -> string -> bool)
  (model_key : string) (llm_config : list (string * llm_entry)) :
  let entry := dict_get llm_config model_key empty_entry in
  let r := __init__ openai_ok model_key llm_config in
  match field_get (cfg_api_keys entry) (Some []) with
  | Some keys =>
      let usable :=
        filter (openai_ok (field_get (cfg_base_url entry) None)) keys in
      map api_key_of (api_states (state_of r)) = usable /\
      (usable = [] -> result_of r = Raises SystemExit) /\
      (usable <> [] -> result_of r = Returns tt)
  | None => api_states (state_of r) = [] /\ result_of r = Raises TypeError
  end.
Proof.
  cbv zeta.
  destruct (init_targets openai_ok model_key llm_config) as (_ & H).
  unfold keys_of in H.
  destruct (field_get
              (cfg_api_keys (dict_get llm_config model_key empty_entry))
              (Some [])) as [keys|]; [|exact H].
  destruct H as [Hkeys Hres]. split; [exact Hkeys|].
  rewrite Hres, <- Hkeys.
  destruct (api_states (state_of (__init__ openai_ok model_key llm_config)));
    cbn; split; intro H; congruence.
Qed.

(** X17. The pool construction leaves, whether it returns or raises: every
    target available, with no failure time and no cooldown of its own, the
    endpoint and model name the record gives (none for an absent or null
    key) and a client of its own; the cursor at 0; the default cooldown
    of 300 seconds and budget of 5 attempts; as temperature and token
    limit what the record holds, [None] for a null, and the defaults 0.7
    and 4096 only when the key is absent. *)
Theorem constructed_pool_is_fresh
  (openai_ok : option string -> string -> bool)
  (model_key : string) (llm_config : list (string * llm_entry)) :
  let entry := dict_get llm_config model_key empty_entry in
  let self := state_of (__init__ openai_ok model_key llm_config) in
  Forall (fresh_target (field_get (cfg_base_url entry) None)
            (field_get (cfg_model entry) None))
    (api_states self) /\
  NoDup (map identity (api_states self)) /\
  _current_api_index self = 0 /\
  settings self
  = (model_key, 300%Z, 5,
     match cfg_temperature entry with
     | Absent => Some (7 # 10) | Null => None | Given t => Some t
     end,
     match cfg_max_tokens entry with
     | Absent => Some 4096%Z | Null => None | Given m => Some m
     end).
Proof.
  cbv zeta.
  destruct (init_targets openai_ok model_key llm_config)
    as ((Hfresh & Hcur & Hset) & _).
  pose proof (constructed_clients_distinct openai_ok model_key llm_config).
  auto.
Qed.

(** X18. Construction followed by rotation: when construction returns, as many
    successive selections as there are targets return every target once,
    in the order of the keys, and leave the instance as constructed. *)
Theorem constructed_pool_rotates_through_its_targets
  (openai_ok : option string -> string -> bool)
  (model_key : string) (llm_config : list (string * llm_entry))
  (clocks : nat -> nat -> float) :
  let r := __init__ openai_ok model_key llm_config in
  let self := state_of r in
  result_of r = Returns tt ->
  successive_selections clocks 0 (List.length (api_states self)) self =
  (Returns (map (fun a => Some (select a)) (api_states self)), self, []).
Proof.
  cbv zeta.
  destruct (init_targets openai_ok model_key llm_config)
    as ((Hfresh & Hcur & _) & Hres).
  cbv zeta in Hfresh, Hcur, Hres.
  set (self := state_of (__init__ openai_ok model_key llm_config)) in *.
  intro Hret.
  assert (Hne : api_states self <> []).
  { destruct (keys_of (dict_get llm_config model_key empty_entry)).
    - destruct Hres as [_ Hres]. rewrite Hret in Hres.
      destruct (api_states self); [discriminate Hres | discriminate].
    - destruct Hres as [_ Hres]. rewrite Hret in Hres. discriminate. }
  assert (Hall : forallb is_available (api_states self) = true).
  { apply forallb_forall. rewrite Forall_forall in Hfresh.
    intros a Ha. exact (proj1 (Hfresh a Ha)). }
  destruct (List.length (api_states self)) as [|n] eqn:EN.
  { destruct (api_states self); [congruence | discriminate EN]. }
  rewrite <- (with_current_api_index_same self) at 1. rewrite Hcur.
  rewrite (successive_from clocks self Hall n 0 0) by lia.
  rewrite EN. cbn [skipn Nat.add]. rewrite <- EN.
  rewrite firstn_all, Nat.Div0.mod_same.
  rewrite <- Hcur at 1. rewrite with_current_api_index_same. reflexivity.
Qed.

(** ** The value returned has no surrounding whitespace *)

Lemma lstrip_starts (sp : ascii -> bool) (s : string) :
  match lstrip_with sp s with
  | String c _ => sp c = false
  | EmptyString => True
  end.
Proof.
  induction s as [|c s IH]; [exact I|]. cbn.
  destruct (sp c) eqn:E; [exact IH | exact E].
Qed.

Lemma reverse_involutive (s : string) : reverse (reverse s) = s.
Proof.
  unfold reverse. rewrite list_ascii_of_string_of_list_ascii.
  rewrite rev_involutive. apply string_of_list_ascii_of_string.
Qed.

Lemma lstrip_keeps_last (sp : ascii -> bool) (c : ascii) :
  sp c = false ->
  forall l, exists l',
    lstrip_with sp (string_of_list_ascii (l ++ [c]))
    = string_of_list_ascii (l' ++ [c]).
Proof.
  intros Hc. induction l as [|x l IH].
  - exists []. cbn. rewrite Hc. reflexivity.
  - cbn. destruct (sp x).
    + exact IH.
    + exists (x :: l). reflexivity.
Qed.

Lemma strip_has_no_surrounding_space (s : string) :
  starts_with_space (strip s) = false /\ ends_with_space (strip s) = false.
Proof.
  unfold strip, rstrip_with, ends_with_space. split.
  - pose proof (lstrip_starts isspace s) as Hs.
    destruct (lstrip_with isspace s) as [|c r]; [reflexivity|].
    unfold reverse at 2. cbn [list_ascii_of_string rev].
    destruct (lstrip_keeps_last isspace c Hs (rev (list_ascii_of_string r)))
      as [l' ->].
    unfold reverse. rewrite list_ascii_of_string_of_list_ascii.
    rewrite rev_app_distr. cbn. exact Hs.
  - rewrite reverse_involutive.
    pose proof (lstrip_starts isspace (reverse (lstrip_with isspace s))) as H.
    destruct (lstrip_with isspace (reverse (lstrip_with isspace s)));
      [reflexivity | exact H].
Qed.

(** X19. Whatever string a call returns, the content of a success or the
    failure string, neither begins nor ends with whitespace. *)
Theorem call_returns_no_surrounding_whitespace
  (env : nat -> attempt_env) (prompt system_prompt : string)
  (self : chatbot) (v : string) :
  result_of (call env prompt system_prompt self) = Returns v ->
  starts_with_space v = false /\ ends_with_space v = false.
Proof.
  intro H. apply call_result_cases in H. cbv zeta in H.
  destruct H as [[-> _]|[(a & c & _ & _ & ->) _]].
  - split; reflexivity.
  - apply strip_has_no_surrounding_space.
Qed.

(** ** Generic failures, and the cursor after a removal *)

Lemma cooling_entry_not_selected (clock : nat -> float) (self : chatbot)
  (i : nat) (b : api_info) :
  cursor_in_range self ->
  NoDup (map identity (api_states self)) ->
  nth_error (api_states self) i = Some b ->
  is_available b = false ->
  (forall k,
      float_gt_int (float_sub (clock k) (last_failure_time b))
        (cooldown_of self b) = false) ->
  exists x,
    result_of (_get_next_available_client clock self) = Returns x /\
    forall sel, x = Some sel -> fst (fst sel) <> client b.
Proof.
  intros Hc Hnd Hb Hav Hearly.
  destruct (select_in_range clock self Hc) as [[x Hx] _].
  exists x. split; [exact Hx|]. intros sel -> Hfst.
  destruct (_get_next_available_client clock self) as [[o3 s3] t3] eqn:E3.
  cbn in Hx. subst o3. apply select_sound in E3.
  destruct E3 as (j & a3 & k & Hj & Hs3 & Hor).
  assert (Hji : j = i).
  { eapply same_identity_same_index; try eassumption.
    unfold identity. subst sel. cbn in Hfst. congruence. }
  subst j. rewrite Hb in Hj. injection Hj as <-.
  destruct Hor as [Hor|Hor]; [congruence|].
  unfold cooldown_over, elapsed in Hor. rewrite (Hearly k) in Hor.
  discriminate.
Qed.

Lemma handle_failure_marks (env : attempt_env) (c : client_t)
  (api_name : string) (self self' : chatbot) (o : outcome flow)
  (t : list event) (i : nat) (a : api_info) :
  handle_response env c api_name self = (o, self', t) ->
  response env = APIError \/ response env = OtherException ->
  first_with_client c (api_states self) 0 = Some (i, a) ->
  o = Returns Continue /\
  self' = with_api_states
            (update_nth i (mark_failed (failure_clock env) a)
               (api_states self)) self.
Proof.
  unfold handle_response. intros H [Hr|Hr] Hf; rewrite Hr in H; revert H;
    run_handler; rewrite Hf; cbv beta iota; intro H;
    injection H as <- <- _; auto.
Qed.

(** X20. An attempt that fails with an API error that is not a status error,
    or with any other exception, leaves the loop going and marks the
    target it used unavailable since the clock reading of the handler; the
    cooldown in effect for the target is the one it had. A selection during
    which the elapsed time never exceeds that cooldown returns none or
    another client. The pool has its cursor in range and distinct
    clients. *)
Theorem failed_target_rests_for_its_cooldown
  (env : attempt_env) (messages : list message) (attempt : nat)
  (self self' : chatbot) (o : outcome flow) (t : list event) (r : request) :
  cursor_in_range self ->
  NoDup (map identity (api_states self)) ->
  attempt_body env messages attempt self = (o, self', t) ->
  In (Invoke r) t ->
  response env = APIError \/ response env = OtherException ->
  o = Returns Continue /\
  exists b,
    In b (api_states self') /\ client b = req_client r /\
    is_available b = false /\
    last_failure_time b = failure_clock env /\
    map cooldown_until (api_states self')
    = map cooldown_until (api_states self) /\
    forall clock,
      (forall k,
          float_gt_int (float_sub (clock k) (failure_clock env))
            (cooldown_of self' b) = false) ->
      exists x,
        result_of (_get_next_available_client clock self') = Returns x /\
        forall sel, x = Some sel -> fst (fst sel) <> req_client r.
Proof.
  intros Hc Hnd Hb Hin Hresp.
  destruct (attempt_body_sent _ _ _ _ _ _ _ _ Hb Hin)
    as (self1 & t1 & t2 & an & Hsel & Hh).
  pose proof (select_effect (select_clock env) self) as Heff.
  pose proof (select_in_range (select_clock env) self Hc) as [_ Hc1].
  cbv zeta in Heff. rewrite Hsel in Heff, Hc1.
  cbn [state_of fst snd] in Heff, Hc1.
  destruct Heff as (_ & Hms & Hcd & _).
  assert (Hnd1 : NoDup (map identity (api_states self1)))
    by (rewrite identity_of_select, Hms, <- identity_of_select; exact Hnd).
  apply select_some in Hsel.
  destruct Hsel as (i & a & a' & _ & Ha' & _ & Hs & _).
  assert (Hcl : client a' = req_client r)
    by (unfold select in Hs; congruence).
  destruct (first_with_client (req_client r) (api_states self1) 0)
    as [[i' a'']|] eqn:Ef.
  2:{ pose proof (first_with_client_none _ _ _ a' Ef
                    (nth_error_In _ _ Ha')) as Hneq.
      unfold client_eqb in Hneq. rewrite Hcl, Nat.eqb_refl in Hneq.
      discriminate. }
  pose proof (first_with_client_found _ _ _ _ _ Ef) as (_ & Ha'' & Heq).
  rewrite Nat.sub_0_r in Ha''. apply client_eqb_identity in Heq.
  assert (Hii : i' = i).
  { eapply same_identity_same_index; try eassumption.
    unfold identity at 2. rewrite Hcl. exact Heq. }
  subst i'. assert (a'' = a') by congruence. subst a''.
  destruct (handle_failure_marks _ _ _ _ _ _ _ _ _ Hh Hresp Ef) as [-> ->].
  set (b := mark_failed (failure_clock env) a').
  set (s2 := with_api_states (update_nth i b (api_states self1)) self1).
  assert (Hbi : nth_error (api_states s2) i = Some b)
    by (cbn [s2 api_states with_api_states];
        rewrite (nth_error_update_nth _ i i a' b Ha'), Nat.eqb_refl;
        reflexivity).
  assert (Hms2 : map identity (api_states s2)
                 = map identity (api_states self1))
    by (apply (map_update_nth _ _ _ a'); [exact Ha' | reflexivity]).
  assert (Hc2 : cursor_in_range s2).
  { unfold cursor_in_range in *.
    rewrite <- (length_map identity), Hms2, length_map. exact Hc1. }
  split; [reflexivity|]. exists b.
  split; [eapply nth_error_In; exact Hbi|].
  split; [exact Hcl|]. split; [reflexivity|]. split; [reflexivity|]. split.
  - rewrite <- Hcd. apply (map_update_nth _ _ _ a'); [exact Ha' | reflexivity].
  - intros clock Hearly. rewrite <- Hcl.
    change (client a') with (client b).
    apply (cooling_entry_not_selected clock s2 i b); auto.
    rewrite Hms2. exact Hnd1.
Qed.

(** X21. Where a permanent removal leaves the cursor. The attempt used the
    target at index [i] of a pool of N >= 2 targets (distinct clients,
    cursor in range) and met a permanent status error: afterwards the pool
    has N - 1 targets and the cursor is (i + 1) mod N. That is an index of
    the list unless the removed target was the last but one; in that case
    every further selection raises [IndexError]. *)
Theorem removal_strands_cursor_after_last_but_one
  (env : attempt_env) (messages : list message) (attempt : nat)
  (self self' : chatbot) (o : outcome flow) (t : list event) (r : request)
  (i : nat) (a : api_info) :
  let N := List.length (api_states self) in
  2 <= N ->
  cursor_in_range self ->
  NoDup (map identity (api_states self)) ->
  attempt_body env messages attempt self = (o, self', t) ->
  response env = APIStatusError ->
  In (Invoke r) t ->
  nth_error (api_states self) i = Some a ->
  client a = req_client r ->
  List.length (api_states self') = N - 1 /\
  _current_api_index self' = (i + 1) mod N /\
  (i <> N - 2 -> cursor_in_range self') /\
  (i = N - 2 ->
   forall clock,
     _get_next_available_client clock self' = (Raises IndexError, self', [])).
Proof.
  intros N HN Hc Hnd Hb Hresp Hin Ha Hcl.
  destruct (attempt_body_sent _ _ _ _ _ _ _ _ Hb Hin)
    as (self1 & t1 & t2 & an & Hsel & Hh).
  pose proof (select_effect (select_clock env) self) as Heff.
  cbv zeta in Heff. rewrite Hsel in Heff. cbn [state_of fst snd] in Heff.
  destruct Heff as (_ & Hms & _ & Hlen).
  assert (Hid1 : map identity (api_states self1)
                 = map identity (api_states self))
    by (rewrite !identity_of_select, Hms; reflexivity).
  assert (Hnd1 : NoDup (map identity (api_states self1)))
    by (rewrite Hid1; exact Hnd).
  apply select_some in Hsel.
  destruct Hsel as (i0 & a0 & a' & _ & Ha' & _ & Hs & _ & _ & Hcur & _).
  assert (Hcl' : client a' = req_client r)
    by (unfold select in Hs; congruence).
  assert (Hi : i0 = i).
  { assert (Hlt : i0 < List.length (map identity (api_states self1))).
    { rewrite length_map. apply nth_error_Some. congruence. }
    apply (proj1 (NoDup_nth_error _) Hnd1 i0 i Hlt).
    rewrite Hid1 at 2. rewrite !nth_error_map, Ha', Ha. cbn.
    unfold identity. congruence. }
  subst i0.
  pose proof (handle_response_effect _ _ _ _ _ _ _ Hh) as (_ & Hcur2 & _).
  pose proof (handle_status_error_removes _ _ _ _ _ _ _ Hh Hresp) as Hst.
  assert (Hlen' : List.length (api_states self') + 1 = N).
  { rewrite Hst. unfold N. rewrite <- Hlen.
    apply filter_removes_one; [exact Hnd1|].
    exists a'. split; [eapply nth_error_In; exact Ha'|].
    unfold identity. congruence. }
  assert (Hi_lt : i < N).
  { unfold N. apply nth_error_Some. congruence. }
  fold N in Hcur.
  split; [lia|]. split; [congruence|]. split.
  - intro Hne. unfold cursor_in_range. rewrite Hcur2, Hcur.
    destruct (Nat.eq_dec (i + 1) N) as [E|E].
    + rewrite E, Nat.Div0.mod_same. lia.
    + rewrite Nat.mod_small by lia. lia.
  - intros -> clock. apply select_out_of_range.
    + intro E. rewrite E in Hlen'. cbn in Hlen'. lia.
    + rewrite Hcur2, Hcur. rewrite Nat.mod_small by lia. lia.
Qed.

(** ** The further properties at work on the example pools *)

Lemma selection_with_cursor_in_range_witness :
  cursor_in_range (example_pool ["k0"; "k1"]) /\
  (exists r,
      result_of (_get_next_available_client (fun _ => float_of_int 0)
                   (example_pool ["k0"; "k1"])) = Returns r) /\
  cursor_in_range
    (state_of (_get_next_available_client (fun _ => float_of_int 0)
                 (example_pool ["k0"; "k1"]))).
Proof.
  assert (H : cursor_in_range (example_pool ["k0"; "k1"]))
    by (vm_compute; lia).
  split; [exact H|].
  exact (selection_with_cursor_in_range (fun _ => float_of_int 0)
           (example_pool ["k0"; "k1"]) H).
Defined.

Lemma selection_with_cursor_out_of_range_witness :
  _get_next_available_client (fun _ => float_of_int 5) after_one_removal
  = (Raises IndexError, after_one_removal, []).
Proof.
  apply (selection_with_cursor_out_of_range (fun _ => float_of_int 5)
           after_one_removal).
  - vm_compute. discriminate.
  - vm_compute. lia.
Defined.

Lemma selection_of_none_changes_nothing_witness :
  _get_next_available_client (fun _ => float_of_int 5)
    (rate_limited_pool "10" (float_of_int 0))
  = (Returns None, rate_limited_pool "10" (float_of_int 0), []).
Proof.
  apply (selection_of_none_changes_nothing (fun _ => float_of_int 5)
           (rate_limited_pool "10" (float_of_int 0))).
  vm_compute. reflexivity.
Defined.

Lemma selection_when_all_cooling_witness :
  _get_next_available_client (fun _ => float_of_int 10)
    (rate_limited_pool "10" (float_of_int 0))
  = (Returns None, rate_limited_pool "10" (float_of_int 0), []).
Proof.
  apply (selection_when_all_cooling (fun _ => float_of_int 10)
           (rate_limited_pool "10" (float_of_int 0))).
  - vm_compute. lia.
  - intros b Hb. vm_compute in Hb. destruct Hb as [<-|[]].
    split; [reflexivity|]. intro k. vm_compute. reflexivity.
Defined.

Lemma selection_marks_what_it_returns_witness :
  exists i a',
    nth_error
      (api_states
         (state_of (_get_next_available_client (fun _ => float_of_int 11)
                      one_cooling_of_two))) i = Some a' /\
    select a' = select cooling_target /\ is_available a' = true.
Proof.
  destruct (selection_marks_what_it_returns (fun _ => float_of_int 11)
              one_cooling_of_two
              (state_of (_get_next_available_client (fun _ => float_of_int 11)
                           one_cooling_of_two))
              (select cooling_target)
              [LogRecovered (name cooling_target)])
    as (i & a & a' & _ & Ha' & _ & Hs & Hav & _).
  - vm_compute. reflexivity.
  - exists i, a'. auto.
Defined.

Lemma selection_skips_to_first_available_witness :
  _get_next_available_client (fun _ => float_of_int 5) one_cooling_of_two
  = (Returns (Some (select serving_target)),
     with_current_api_index 0 one_cooling_of_two, []).
Proof.
  apply (selection_skips_to_first_available (fun _ => float_of_int 5)
           one_cooling_of_two 1 serving_target).
  - vm_compute. lia.
  - vm_compute. lia.
  - vm_compute. reflexivity.
  - reflexivity.
  - intros k b Hk Hb. assert (k = 0) by lia. subst k.
    vm_compute in Hb. injection Hb as <-. split; vm_compute; reflexivity.
Defined.

Lemma call_keeps_settings_and_adds_no_target_witness :
  NoDup (map identity
           (api_states
              (state_of (call (steady (float_of_int 5) APIStatusError) "hi"
                           default_system_prompt
                           (example_pool ["k0"; "k1"; "k2"]))))).
Proof.
  apply (proj2 (proj2 (proj2 (call_keeps_settings_and_adds_no_target
                                (steady (float_of_int 5) APIStatusError) "hi"
                                default_system_prompt
                                (example_pool ["k0"; "k1"; "k2"]))))).
  vm_compute. repeat constructor; cbn; intuition discriminate.
Defined.

Lemma call_sends_requests_to_pool_targets_witness :
  (exists api_name,
      In (req_client first_request, req_model first_request, api_name)
        (map select (api_states (example_pool ["k0"; "k1"])))) /\
  req_temperature first_request = temperature (example_pool ["k0"; "k1"]) /\
  req_max_tokens first_request = max_tokens (example_pool ["k0"; "k1"]).
Proof.
  apply (call_sends_requests_to_pool_targets
           (steady (float_of_int 5) APIError) "hi"
           default_system_prompt (example_pool ["k0"; "k1"]) first_request).
  vm_compute. left. reflexivity.
Defined.

Lemma call_returns_when_failures_are_transient_witness :
  (exists v,
      result_of (call (steady (float_of_int 5) APIError) "hi"
                   default_system_prompt
                   (example_pool ["k0"; "k1"])) = Returns v) /\
  cursor_ok (state_of (call (steady (float_of_int 5) APIError) "hi"
                         default_system_prompt
                         (example_pool ["k0"; "k1"]))) /\
  map select
    (api_states (state_of (call (steady (float_of_int 5) APIError) "hi"
                             default_system_prompt
                             (example_pool ["k0"; "k1"]))))
  = map select (api_states (example_pool ["k0"; "k1"])).
Proof.
  apply (call_returns_when_failures_are_transient
           (steady (float_of_int 5) APIError) "hi"
           default_system_prompt (example_pool ["k0"; "k1"])).
  - intro a. exact I.
  - left. vm_compute. lia.
Defined.

Lemma call_returns_failure_string_or_content_witness :
  let t := events_of (call failed_then_null "hi" default_system_prompt
                        (example_pool ["k0"; "k1"])) in
  ("None" = failure_result /\ In (LogExhausted 5) t)
  \/
  ((exists a c,
       a < 5 /\ response (failed_then_null a) = Completion c /\
       "None" = strip (str c))
   /\ forall k, ~ In (LogExhausted k) t).
Proof.
  apply (call_returns_failure_string_or_content failed_then_null "hi"
           default_system_prompt (example_pool ["k0"; "k1"]) "None").
  vm_compute. reflexivity.
Defined.

Lemma call_fails_at_once_when_none_available_witness :
  call (steady (float_of_int 5) APIError) "hi" default_system_prompt
    (rate_limited_pool "10" (float_of_int 0))
  = (Returns failure_result, rate_limited_pool "10" (float_of_int 0),
     [LogNoneAvailable;
      LogExhausted
        (max_attempts_per_prompt (rate_limited_pool "10" (float_of_int 0)))]).
Proof.
  apply (call_fails_at_once_when_none_available
           (steady (float_of_int 5) APIError) "hi"
           default_system_prompt (rate_limited_pool "10" (float_of_int 0))).
  - vm_compute. lia.
  - vm_compute. reflexivity.
Defined.

Lemma call_returns_no_surrounding_whitespace_witness :
  starts_with_space "None" = false /\ ends_with_space "None" = false.
Proof.
  apply (call_returns_no_surrounding_whitespace failed_then_null "hi"
           default_system_prompt (example_pool ["k0"; "k1"]) "None").
  vm_compute. reflexivity.
Defined.

Lemma removed_target_is_never_used_again_witness :
  List.length (api_states (state_of (first_attempt APIStatusError))) + 1
  = List.length (api_states (example_pool ["k0"; "k1"])).
Proof.
  apply (proj1 (removed_target_is_never_used_again
                  (steady (float_of_int 5) APIStatusError 0)
                  (build_messages "hi" default_system_prompt) 0
                  (example_pool ["k0"; "k1"])
                  (state_of (first_attempt APIStatusError))
                  (result_of (first_attempt APIStatusError))
                  (events_of (first_attempt APIStatusError))
                  first_request
                  (constructed_clients_distinct always_builds "m"
                     [("m", example_entry ["k0"; "k1"])])
                  eq_refl eq_refl
                  (or_intror (or_introl eq_refl)))).
Defined.

Lemma rate_limited_target_rests_for_its_delay_witness :
  exists b,
    In b (api_states (state_of (first_attempt (RateLimitError (Some "10")))))
    /\ client b = req_client first_request /\
    is_available b = false /\
    last_failure_time b = float_of_int 5 /\
    cooldown_until b = Some 10%Z.
Proof.
  refine (proj1 (proj2
            (rate_limited_target_rests_for_its_delay
               (steady (float_of_int 5) (RateLimitError (Some "10")) 0)
               (build_messages "hi" default_system_prompt) 0
               (example_pool ["k0"; "k1"])
               (state_of (first_attempt (RateLimitError (Some "10"))))
               (result_of (first_attempt (RateLimitError (Some "10"))))
               (events_of (first_attempt (RateLimitError (Some "10"))))
               first_request (Some "10") 10%Z
               _
               (constructed_clients_distinct always_builds "m"
                  [("m", example_entry ["k0"; "k1"])])
               eq_refl
               (or_intror (or_introl eq_refl))
               eq_refl eq_refl))).
  vm_compute. lia.
Defined.

Lemma failed_target_rests_for_its_cooldown_witness :
  result_of (first_attempt APIError) = Returns Continue.
Proof.
  refine (proj1 (failed_target_rests_for_its_cooldown
                   (steady (float_of_int 5) APIError 0)
                   (build_messages "hi" default_system_prompt) 0
                   (example_pool ["k0"; "k1"])
                   (state_of (first_attempt APIError))
                   (result_of (first_attempt APIError))
                   (events_of (first_attempt APIError))
                   first_request
                   _
                   (constructed_clients_distinct always_builds "m"
                      [("m", example_entry ["k0"; "k1"])])
                   eq_refl
                   (or_intror (or_introl eq_refl))
                   (or_introl eq_refl))).
  vm_compute. lia.
Defined.

Lemma removal_strands_cursor_after_last_but_one_witness :
  _get_next_available_client (fun _ => float_of_int 7)
    (state_of (first_attempt APIStatusError))
  = (Raises IndexError, state_of (first_attempt APIStatusError), []).
Proof.
  refine (proj2 (proj2 (proj2 (removal_strands_cursor_after_last_but_one
                                 (steady (float_of_int 5) APIStatusError 0)
                                 (build_messages "hi" default_system_prompt) 0
                                 (example_pool ["k0"; "k1"])
                                 (state_of (first_attempt APIStatusError))
                                 (result_of (first_attempt APIStatusError))
                                 (events_of (first_attempt APIStatusError))
                                 first_request 0
                                 {| is_available := true;
                                    last_failure_time := float_of_int 0;
                                    client := req_client first_request;
                                    model_name := Some "example-model";
                                    name := "m-0@https://api.example.com/v1";
                                    cooldown_until := None |}
                                 _ _
                                 (constructed_clients_distinct always_builds
                                    "m" [("m", example_entry ["k0"; "k1"])])
                                 eq_refl eq_refl
                                 (or_intror (or_introl eq_refl))
                                 eq_refl eq_refl)))
            eq_refl (fun _ => float_of_int 7)).
  - vm_compute. lia.
  - vm_compute. lia.
Defined.

Lemma construction_builds_one_target_per_usable_key_witness :
  result_of (__init__ always_builds "m" [("m", example_entry ["k0"])])
  = Returns tt
  /\
  result_of (__init__ always_builds "other" [("m", example_entry ["k0"])])
  = Raises SystemExit
  /\
  result_of (__init__ always_builds "m" [("m", entry_with_null_keys)])
  = Raises TypeError.
Proof.
  split; [|split].
  - apply (proj2 (proj2 (construction_builds_one_target_per_usable_key
                           always_builds "m" [("m", example_entry ["k0"])]))).
    vm_compute. discriminate.
  - apply (proj1 (proj2 (construction_builds_one_target_per_usable_key
                           always_builds "other"
                           [("m", example_entry ["k0"])]))).
    vm_compute. reflexivity.
  - apply (proj2 (construction_builds_one_target_per_usable_key
                    always_builds "m" [("m", entry_with_null_keys)])).
Defined.

Lemma constructed_pool_rotates_through_its_targets_witness :
  successive_selections (fun _ _ => float_of_int 0) 0 2
    (example_pool ["k0"; "k1"])
  = (Returns (map (fun a => Some (select a))
                (api_states (example_pool ["k0"; "k1"]))),
     example_pool ["k0"; "k1"], []).
Proof.
  apply (constructed_pool_rotates_through_its_targets always_builds "m"
           [("m", example_entry ["k0"; "k1"])] (fun _ _ => float_of_int 0)).
  vm_compute. reflexivity.
Defined.

End Chatbot.
